(** * Mergington High School API: a shallow embedding of [src/app.py]

    The handlers of the FastAPI application are embedded as functions of an
    explicit store: the in-memory [activities] registry is a finite map from
    activity names, the two SQL tables are finite maps from primary keys, and a
    handler either returns its response or raises, exactly where the Python
    code writes [raise HTTPException(...)].  Python [str] is [string], Python
    [int] is [Z], [Optional[T]] is [option T]. *)

From Stdlib Require Import ZArith Ascii String.
From stdpp Require Import gmap strings list fin_maps.

Open Scope string_scope.
Open Scope Z_scope.
Open Scope list_scope.

(** ** Python built-ins used by the handlers *)

(** [s.split(sep)] for a one-character separator: [n] separators give [n+1]
    segments, the empty string gives one empty segment. *)
Fixpoint split (sep : ascii) (s : string) : list string :=
  match s with
  | EmptyString => [EmptyString]
  | String c rest =>
      if Ascii.eqb c sep then EmptyString :: split sep rest
      else match split sep rest with
           | seg :: segs => String c seg :: segs
           | [] => [String c EmptyString]
           end
  end.

(** [sep.join(lst)]. *)
Definition join (sep : string) (lst : list string) : string :=
  String.concat sep lst.

(** Truth value of a [str]: only the empty string is falsy. *)
Definition truthy_str (s : string) : bool :=
  match s with EmptyString => false | String _ _ => true end.

(** Truth value of an [int]: only zero is falsy. *)
Definition truthy_int (n : Z) : bool := negb (n =? 0).

(** Truth value of an [Optional[T]] whose [T] has the truth value [t]. *)
Definition truthy_opt {A} (t : A → bool) (o : option A) : bool :=
  match o with None => false | Some a => t a end.

(** [x in lst] on a list of strings. *)
Definition py_in (x : string) (lst : list string) : bool :=
  bool_decide (x ∈ lst).

(** [lst.remove(x)]: drops the first occurrence (the handlers call it only
    after checking [x in lst], so the [ValueError] case never arises; on a
    list without [x] the model returns the list as it is). *)
Fixpoint py_remove (x : string) (lst : list string) : list string :=
  match lst with
  | [] => []
  | y :: rest => if decide (x = y) then rest else y :: py_remove x rest
  end.

(** [lst.count(x)]. *)
Definition py_count (x : string) (lst : list string) : nat :=
  length (filter (λ y, y = x) lst).

(** [len(lst)] as a Python [int]. *)
Definition len {A} (lst : list A) : Z := Z.of_nat (length lst).

(** A naive [datetime.datetime]. *)
Record datetime := Datetime {
  year : Z; month : Z; day : Z;
  hour : Z; minute : Z; second : Z; microsecond : Z
}.

(** ** Exceptions and the handler monad *)

(** What a handler can raise: the [HTTPException]s written in the source, and
    the errors of the persistence layer, which no handler catches: the
    integrity error (a primary key that is NULL or already taken), the
    overflow error (an integer the 64-bit key column cannot hold) and the
    statement error (a value the column type does not take). *)
Inductive exn :=
| HTTPException (status_code : Z) (detail : string)
| IntegrityError
| OverflowError
| StatementError.

(** A handler over a store [St]: the response or the exception, and the store
    afterwards. *)
Definition handler (St A : Type) : Type := St → (exn + A) * St.

Definition ret {St A} (a : A) : handler St A := λ st, (inr a, st).

Definition raise {St A} (e : exn) : handler St A := λ st, (inl e, st).

Definition bind {St A B} (m : handler St A) (k : A → handler St B) : handler St B :=
  λ st, match m st with
        | (inr a, st') => k a st'
        | (inl e, st') => (inl e, st')
        end.

Definition get_store {St} : handler St St := λ st, (inr st, st).

Definition put_store {St} (st' : St) : handler St () := λ _, (inr (), st').

Notation "x <~ m ;; k" := (bind m (λ x, k))
  (at level 100, m at next level, right associativity).
Notation "m ;;; k" := (bind m (λ _, k))
  (at level 100, right associativity).

(** [if cond: raise e]. *)
Definition raise_if {St} (cond : bool) (e : exn) : handler St () :=
  if cond then raise e else ret ().

(** The status line FastAPI answers with: 200 for a returned value, the
    exception's own code for an [HTTPException], 500 for anything else. *)
Definition http_status {A} (r : exn + A) : Z :=
  match r with
  | inr _ => 200
  | inl (HTTPException code _) => code
  | inl _ => 500
  end.

(** ** The data model *)

(** One entry of the in-memory registry: the dict under an activity name. *)
Record Activity := mkActivity {
  act_description : string;
  schedule : string;
  max_participants : Z;
  participants : list string
}.

(** [class Event(SQLModel, table=True)]. *)
Module Event.
Record t := mk {
  id : option Z;
  title : string;
  description : option string;
  location : option string;
  start_datetime : option datetime;
  end_datetime : option datetime;
  capacity : option Z;
  (* attendees stored as comma-separated emails *)
  attendees : option string;
  organizer : option string;
  tags : option string
}.

Definition set_id (v : option Z) (e : t) : t :=
  mk v (title e) (description e) (location e) (start_datetime e)
     (end_datetime e) (capacity e) (attendees e) (organizer e) (tags e).
Definition set_title (v : string) (e : t) : t :=
  mk (id e) v (description e) (location e) (start_datetime e)
     (end_datetime e) (capacity e) (attendees e) (organizer e) (tags e).
Definition set_description (v : option string) (e : t) : t :=
  mk (id e) (title e) v (location e) (start_datetime e)
     (end_datetime e) (capacity e) (attendees e) (organizer e) (tags e).
Definition set_location (v : option string) (e : t) : t :=
  mk (id e) (title e) (description e) v (start_datetime e)
     (end_datetime e) (capacity e) (attendees e) (organizer e) (tags e).
Definition set_start_datetime (v : option datetime) (e : t) : t :=
  mk (id e) (title e) (description e) (location e) v
     (end_datetime e) (capacity e) (attendees e) (organizer e) (tags e).
Definition set_end_datetime (v : option datetime) (e : t) : t :=
  mk (id e) (title e) (description e) (location e) (start_datetime e)
     v (capacity e) (attendees e) (organizer e) (tags e).
Definition set_capacity (v : option Z) (e : t) : t :=
  mk (id e) (title e) (description e) (location e) (start_datetime e)
     (end_datetime e) v (attendees e) (organizer e) (tags e).
Definition set_attendees (v : option string) (e : t) : t :=
  mk (id e) (title e) (description e) (location e) (start_datetime e)
     (end_datetime e) (capacity e) v (organizer e) (tags e).
Definition set_organizer (v : option string) (e : t) : t :=
  mk (id e) (title e) (description e) (location e) (start_datetime e)
     (end_datetime e) (capacity e) (attendees e) v (tags e).
Definition set_tags (v : option string) (e : t) : t :=
  mk (id e) (title e) (description e) (location e) (start_datetime e)
     (end_datetime e) (capacity e) (attendees e) (organizer e) v.

(** A request body of type [Event] as [payload.dict(exclude_unset=True)]
    sees it: for each field, [None] when the body did not set it and
    [Some v] when it did ([v] itself may be the JSON null of an optional
    field). *)
Record payload := mkPayload {
  p_id : option (option Z);
  p_title : option string;
  p_description : option (option string);
  p_location : option (option string);
  p_start_datetime : option (option datetime);
  p_end_datetime : option (option datetime);
  p_capacity : option (option Z);
  p_attendees : option (option string);
  p_organizer : option (option string);
  p_tags : option (option string)
}.
End Event.

(** [class News(SQLModel, table=True)]. *)
Module News.
Record t := mk {
  id : option Z;
  title : string;
  body : option string;
  author : option string;
  published_at : option datetime;
  tags : option string
}.

Definition set_id (v : option Z) (n : t) : t :=
  mk v (title n) (body n) (author n) (published_at n) (tags n).
Definition set_title (v : string) (n : t) : t :=
  mk (id n) v (body n) (author n) (published_at n) (tags n).
Definition set_tags (v : option string) (n : t) : t :=
  mk (id n) (title n) (body n) (author n) (published_at n) v.

(** A [published_at] as [create_news] finds it on its argument.  The body of
    a request is not validated against the model, so a value sent over HTTP is
    still the text of the JSON body; a caller inside Python can pass a
    [datetime] object. *)
Inductive sent :=
| At (d : datetime)
| Text (s : string).

(** The [News] object [create_news] receives: the declared fields, with
    [published_at] as it was sent. *)
Record request := mkRequest {
  r_id : option Z;
  r_title : string;
  r_body : option string;
  r_author : option string;
  r_published_at : option sent;
  r_tags : option string
}.

Definition set_r_published_at (v : option sent) (n : request) : request :=
  mkRequest (r_id n) (r_title n) (r_body n) (r_author n) v (r_tags n).

(** A request body of type [News] as [payload.dict(exclude_unset=True)] sees
    it: [None] for a field the body did not set. *)
Record payload := mkPayload {
  p_id : option (option Z);
  p_title : option string;
  p_body : option (option string);
  p_author : option (option string);
  p_published_at : option (option datetime);
  p_tags : option (option string)
}.
End News.

(** ** The persistence layer

    A table is a finite map from primary keys to rows.  The operations below
    are the ones the handlers reach through [Session]: [session.get], and the
    INSERT, UPDATE and DELETE that [session.add] / [session.delete] followed
    by [session.commit] issue.  A write that would leave the primary key NULL
    or duplicated raises and changes nothing. *)

(** A [table=True] model: a row type with its [id] column. *)
Class Row (R : Type) := {
  pk : R → option Z;
  with_pk : option Z → R → R
}.

#[export] Instance Event_Row : Row Event.t :=
  {| pk := Event.id; with_pk := Event.set_id |}.
#[export] Instance News_Row : Row News.t :=
  {| pk := News.id; with_pk := News.set_id |}.

Section Session.
Context {R : Type} `{Row R}.

(** The primary key is a signed 64-bit integer column. *)
Definition max_rowid : Z := 2 ^ 63 - 1.

Definition in_int64 (key : Z) : bool :=
  (- 2 ^ 63 <=? key) && (key <=? max_rowid).

(** A positive key that is not in use.  Among the first [size tbl + 1]
    positive integers one is free; this is the least of them. *)
Definition unused_rowid (tbl : gmap Z R) : Z :=
  default 1 (head (filter (λ key, key ∉ dom tbl)
                          (seqZ 1 (Z.of_nat (size tbl) + 1)))).

(** The key the storage engine gives a row inserted without one: 1 in an
    empty table, one more than the largest key in use while that is below the
    largest key there is, and otherwise a positive key that is not in use.
    (The engine draws that last key at random; the model takes the least one,
    and nothing below depends on which one it is.) *)
Definition next_rowid (tbl : gmap Z R) : Z :=
  match (map_to_list tbl).*1 with
  | [] => 1
  | k :: ks =>
      if decide (foldr Z.max k ks < max_rowid) then foldr Z.max k ks + 1
      else unused_rowid tbl
  end.

(** [session.get(R, key)]: the row stored under [key], if any; the object
    it returns carries [key] as its primary key. *)
Definition session_get (key : Z) : handler (gmap Z R) (option R) :=
  λ tbl, (inr (with_pk (Some key) <$> tbl !! key), tbl).

(** [session.add(row); session.commit(); session.refresh(row)] for a row
    that is not in the table yet.  A key the row brings along has to fit the
    column and to be free. *)
Definition session_insert (row : R) : handler (gmap Z R) R :=
  λ tbl,
    match pk row with
    | None =>
        let row' := with_pk (Some (next_rowid tbl)) row in
        (inr row', <[next_rowid tbl := row']> tbl)
    | Some key =>
        if negb (in_int64 key) then (inl OverflowError, tbl)
        else match tbl !! key with
             | Some _ => (inl IntegrityError, tbl)
             | None => (inr row, <[key := row]> tbl)
             end
    end.

(** [session.add(row); session.commit(); session.refresh(row)] for a row
    that was loaded under [key] and has been modified since. *)
Definition session_update (key : Z) (row : R) : handler (gmap Z R) R :=
  λ tbl,
    match pk row with
    | None => (inl IntegrityError, tbl)
    | Some key' =>
        if decide (key' = key) then (inr row, <[key := row]> tbl)
        else match tbl !! key' with
             | Some _ => (inl IntegrityError, tbl)
             | None => (inr row, <[key' := row]> (delete key tbl))
             end
    end.


(** [session.exec(select(R)).all()]. *)
Definition session_all : handler (gmap Z R) (list R) :=
  λ tbl, (inr (map_to_list tbl).*2, tbl).

End Session.

(** ** The handlers *)

(** The JSON object [{"message": ...}] the signup handlers answer with. *)
Record Message := mkMessage { message : string }.

(** *** Events *)


Definition create_event (event : Event.t) : handler (gmap Z Event.t) Event.t :=
  session_insert event.

Definition get_event (event_id : Z) : handler (gmap Z Event.t) Event.t :=
  event <~ session_get event_id ;;
  match event with
  | None => raise (HTTPException 404 "Event not found")
  | Some event => ret event
  end.

(** [setattr(event, k, v)] for a field that the payload may or may not set. *)
Definition setattr_if_set {V} (set : V → Event.t → Event.t) (o : option V)
    (event : Event.t) : Event.t :=
  match o with
  | Some v => set v event
  | None => event
  end.

(** [for k, v in payload.dict(exclude_unset=True).items(): setattr(event, k, v)],
    in the order of the model's fields. *)
Definition apply_payload (payload : Event.payload) (event : Event.t) : Event.t :=
  let event := setattr_if_set Event.set_id (Event.p_id payload) event in
  let event := setattr_if_set Event.set_title (Event.p_title payload) event in
  let event := setattr_if_set Event.set_description (Event.p_description payload) event in
  let event := setattr_if_set Event.set_location (Event.p_location payload) event in
  let event := setattr_if_set Event.set_start_datetime (Event.p_start_datetime payload) event in
  let event := setattr_if_set Event.set_end_datetime (Event.p_end_datetime payload) event in
  let event := setattr_if_set Event.set_capacity (Event.p_capacity payload) event in
  let event := setattr_if_set Event.set_attendees (Event.p_attendees payload) event in
  let event := setattr_if_set Event.set_organizer (Event.p_organizer payload) event in
  setattr_if_set Event.set_tags (Event.p_tags payload) event.

Definition update_event (event_id : Z) (payload : Event.payload)
    : handler (gmap Z Event.t) Event.t :=
  event <~ session_get event_id ;;
  match event with
  | None => raise (HTTPException 404 "Event not found")
  | Some event => session_update event_id (apply_payload payload event)
  end.


Definition _parse_attendees (s : option string) : list string :=
  if negb (truthy_opt truthy_str s) then []
  else match s with
       | Some s => filter (λ e, truthy_str e = true) (split "," s)
       | None => []
       end.

Definition _join_attendees (lst : list string) : string :=
  join "," lst.

(** [event.capacity and len(attendees) >= event.capacity]. *)
Definition is_full (capacity : option Z) (attendees : list string) : bool :=
  match capacity with
  | Some c => truthy_int c && (c <=? len attendees)
  | None => false
  end.

Definition signup_event (event_id : Z) (email : string)
    : handler (gmap Z Event.t) Message :=
  event <~ session_get event_id ;;
  match event with
  | None => raise (HTTPException 404 "Event not found")
  | Some event =>
      let attendees := _parse_attendees (Event.attendees event) in
      raise_if (py_in email attendees)
               (HTTPException 400 "Already signed up") ;;;
      raise_if (is_full (Event.capacity event) attendees)
               (HTTPException 400 "Event is full") ;;;
      let attendees := attendees ++ [email] in
      session_update event_id
        (Event.set_attendees (Some (_join_attendees attendees)) event) ;;;
      ret (mkMessage ("Signed up " +:+ email))
  end.

Definition unregister_event (event_id : Z) (email : string)
    : handler (gmap Z Event.t) Message :=
  event <~ session_get event_id ;;
  match event with
  | None => raise (HTTPException 404 "Event not found")
  | Some event =>
      let attendees := _parse_attendees (Event.attendees event) in
      raise_if (negb (py_in email attendees))
               (HTTPException 400 "Not signed up") ;;;
      let attendees := py_remove email attendees in
      session_update event_id
        (Event.set_attendees (Some (_join_attendees attendees)) event) ;;;
      ret (mkMessage ("Unregistered " +:+ email))
  end.

Definition checkin_event (event_id : Z) (email : string)
    : handler (gmap Z Event.t) Message :=
  event <~ session_get event_id ;;
  match event with
  | None => raise (HTTPException 404 "Event not found")
  | Some event =>
      let attendees := _parse_attendees (Event.attendees event) in
      raise_if (negb (py_in email attendees))
               (HTTPException 400 "Student not registered") ;;;
      ret (mkMessage ("Checked in " +:+ email))
  end.

(** *** News *)

Definition list_news : handler (gmap Z News.t) (list News.t) :=
  session_all.

(** Truth value of a [published_at] that is not [None]: a [datetime] object
    is always truthy, a text is truthy unless it is empty. *)
Definition truthy_sent (v : News.sent) : bool :=
  match v with
  | News.At _ => true
  | News.Text s => truthy_str s
  end.

(** What the INSERT makes of [published_at] for the DateTime column: NULL for
    [None]; a [datetime] object is stored when the installed library takes it
    ([accepted]; releases differ on the naive value of [utcnow()]); a text is
    refused, the column type takes [datetime] objects only. *)
Definition bind_published_at (accepted : datetime → bool)
    (v : option News.sent) : exn + option datetime :=
  match v with
  | None => inr None
  | Some (News.At d) => if accepted d then inr (Some d) else inl StatementError
  | Some (News.Text _) => inl StatementError
  end.

(** [utcnow] is the value [datetime.utcnow()] returns when the handler runs;
    [accepted] is the library's verdict on a [datetime] object at INSERT. *)
Definition create_news (accepted : datetime → bool) (utcnow : datetime)
    (item : News.request) : handler (gmap Z News.t) News.t :=
  let item :=
    if negb (truthy_opt truthy_sent (News.r_published_at item))
    then News.set_r_published_at (Some (News.At utcnow)) item
    else item in
  match bind_published_at accepted (News.r_published_at item) with
  | inl e => raise e
  | inr published_at =>
      session_insert
        (News.mk (News.r_id item) (News.r_title item) (News.r_body item)
                 (News.r_author item) published_at (News.r_tags item))
  end.

Definition get_news (news_id : Z) : handler (gmap Z News.t) News.t :=
  item <~ session_get news_id ;;
  match item with
  | None => raise (HTTPException 404 "News not found")
  | Some item => ret item
  end.





(** *** Activities *)

(** The in-memory activity database as the module defines it at import. *)
Definition activities : gmap string Activity :=
  list_to_map [
    ("Chess Club",
     mkActivity "Learn strategies and compete in chess tournaments"
       "Fridays, 3:30 PM - 5:00 PM" 12
       ["michael@mergington.edu"; "daniel@mergington.edu"]);
    ("Programming Class",
     mkActivity "Learn programming fundamentals and build software projects"
       "Tuesdays and Thursdays, 3:30 PM - 4:30 PM" 20
       ["emma@mergington.edu"; "sophia@mergington.edu"]);
    ("Gym Class",
     mkActivity "Physical education and sports activities"
       "Mondays, Wednesdays, Fridays, 2:00 PM - 3:00 PM" 30
       ["john@mergington.edu"; "olivia@mergington.edu"]);
    ("Soccer Team",
     mkActivity "Join the school soccer team and compete in matches"
       "Tuesdays and Thursdays, 4:00 PM - 5:30 PM" 22
       ["liam@mergington.edu"; "noah@mergington.edu"]);
    ("Basketball Team",
     mkActivity "Practice and play basketball with the school team"
       "Wednesdays and Fridays, 3:30 PM - 5:00 PM" 15
       ["ava@mergington.edu"; "mia@mergington.edu"]);
    ("Art Club",
     mkActivity "Explore your creativity through painting and drawing"
       "Thursdays, 3:30 PM - 5:00 PM" 15
       ["amelia@mergington.edu"; "harper@mergington.edu"]);
    ("Drama Club",
     mkActivity "Act, direct, and produce plays and performances"
       "Mondays and Wednesdays, 4:00 PM - 5:30 PM" 20
       ["ella@mergington.edu"; "scarlett@mergington.edu"]);
    ("Math Club",
     mkActivity "Solve challenging problems and participate in math competitions"
       "Tuesdays, 3:30 PM - 4:30 PM" 10
       ["james@mergington.edu"; "benjamin@mergington.edu"]);
    ("Debate Team",
     mkActivity "Develop public speaking and argumentation skills"
       "Fridays, 4:00 PM - 5:30 PM" 12
       ["charlotte@mergington.edu"; "henry@mergington.edu"])
  ].

(** [activity["participants"] = v]: the entry under an activity name is a
    shared dict, so a change of its list is a change of the registry. *)
Definition set_participants (v : list string) (activity : Activity) : Activity :=
  mkActivity (act_description activity) (schedule activity)
             (max_participants activity) v.

Definition get_activities : handler (gmap string Activity) (gmap string Activity) :=
  get_store.

Definition signup_for_activity (activity_name email : string)
    : handler (gmap string Activity) Message :=
  registry <~ get_store ;;
  (* Validate activity exists *)
  match registry !! activity_name with
  | None => raise (HTTPException 404 "Activity not found")
  | Some activity =>
      (* Validate student is not already signed up *)
      raise_if (py_in email (participants activity))
               (HTTPException 400 "Student is already signed up") ;;;
      (* Add student *)
      put_store (<[activity_name :=
                     set_participants (participants activity ++ [email]) activity]>
                   registry) ;;;
      ret (mkMessage ("Signed up " +:+ email +:+ " for " +:+ activity_name))
  end.

Definition unregister_from_activity (activity_name email : string)
    : handler (gmap string Activity) Message :=
  registry <~ get_store ;;
  (* Validate activity exists *)
  match registry !! activity_name with
  | None => raise (HTTPException 404 "Activity not found")
  | Some activity =>
      (* Validate student is signed up *)
      raise_if (negb (py_in email (participants activity)))
               (HTTPException 400 "Student is not signed up for this activity") ;;;
      (* Remove student *)
      put_store (<[activity_name :=
                     set_participants (py_remove email (participants activity)) activity]>
                   registry) ;;;
      ret (mkMessage ("Unregistered " +:+ email +:+ " from " +:+ activity_name))
  end.

(** ** The attendee encoding *)

(** An email the comma encoding can carry: no comma in it. *)
Fixpoint has_comma (s : string) : bool :=
  match s with
  | EmptyString => false
  | String c rest => Ascii.eqb c "," || has_comma rest
  end.

(** What a decoded attendee always is, and what an email has to be for the
    encoding to give it back: non-empty and free of commas. *)
Definition encodable (e : string) : Prop :=
  truthy_str e = true ∧ has_comma e = false.

(** [sub in s] on strings. *)
Definition contains (s sub : string) : Prop :=
  ∃ pre post, s = pre +:+ sub +:+ post.

(** ** Requests against the whole state

    The signup surface of the API as one transition system: the registry and
    the event table together, and the five membership requests. *)

Record world := mkWorld {
  registry : gmap string Activity;
  events : gmap Z Event.t
}.

Inductive request :=
| ActivitySignup (activity_name email : string)
| ActivityUnregister (activity_name email : string)
| EventSignup (event_id : Z) (email : string)
| EventUnregister (event_id : Z) (email : string)
| EventCheckin (event_id : Z) (email : string).

Definition on_registry (h : handler (gmap string Activity) Message) (w : world)
    : (exn + Message) * world :=
  let '(r, reg) := h (registry w) in (r, mkWorld reg (events w)).

Definition on_events (h : handler (gmap Z Event.t) Message) (w : world)
    : (exn + Message) * world :=
  let '(r, tbl) := h (events w) in (r, mkWorld (registry w) tbl).

Definition serve (req : request) : world → (exn + Message) * world :=
  match req with
  | ActivitySignup name email => on_registry (signup_for_activity name email)
  | ActivityUnregister name email => on_registry (unregister_from_activity name email)
  | EventSignup event_id email => on_events (signup_event event_id email)
  | EventUnregister event_id email => on_events (unregister_event event_id email)
  | EventCheckin event_id email => on_events (checkin_event event_id email)
  end.

(** No email twice in the participants list of any activity. *)
Definition unique_participants (reg : gmap string Activity) : Prop :=
  ∀ name activity, reg !! name = Some activity → NoDup (participants activity).

(** No email twice in the decoded attendee list of any event. *)
Definition unique_attendees (tbl : gmap Z Event.t) : Prop :=
  ∀ key event, tbl !! key = Some event →
    NoDup (_parse_attendees (Event.attendees event)).

Definition unique_members (w : world) : Prop :=
  unique_participants (registry w) ∧ unique_attendees (events w).

(** The emails a request asks to add to the comma encoding. *)
Definition encoded_email (req : request) : option string :=
  match req with
  | EventSignup _ email => Some email
  | _ => None
  end.

(** The decoded attendee list of the event stored under [event_id], as a
    reader of the event sees it. *)
Definition attendees_of (tbl : gmap Z Event.t) (event_id : Z)
    : option (list string) :=
  (λ event, _parse_attendees (Event.attendees event)) <$> tbl !! event_id.



(** Every stored row carries the key it is stored under as its [id]. *)
Definition keyed {R} `{Row R} (tbl : gmap Z R) : Prop :=
  ∀ key row, tbl !! key = Some row → pk row = Some key.

(** The number of commas in a stored attendees string. *)
Fixpoint commas (s : string) : nat :=
  match s with
  | EmptyString => 0
  | String c rest => (if Ascii.eqb c "," then 1 else 0) + commas rest
  end.



(** The body [{}]: no field set. *)
Definition no_fields : Event.payload :=
  Event.mkPayload None None None None None None None None None None.


(** [reg'] has the activities of [reg], each with its description, schedule
    and [max_participants]. *)
Definition same_offer (reg reg' : gmap string Activity) : Prop :=
  dom reg' = dom reg
  ∧ ∀ name activity', reg' !! name = Some activity' →
      ∃ activity, reg !! name = Some activity
                  ∧ act_description activity' = act_description activity
                  ∧ schedule activity' = schedule activity
                  ∧ max_participants activity' = max_participants activity.

(** ** Sample stores *)

(** A request body for a new event: no id, no attendees. *)
Definition new_fair (capacity : option Z) : Event.t :=
  Event.mk None "Science Fair" (Some "Annual science fair") (Some "Gym")
           None None capacity None (Some "Ms. Rivera") (Some "science").

Definition fair (key : Z) (capacity : option Z) (attendees : option string)
    : Event.t :=
  Event.mk (Some key) "Science Fair" (Some "Annual science fair") (Some "Gym")
           None None capacity attendees (Some "Ms. Rivera") (Some "science").

(** Event 1 is full with one attendee, event 2 has capacity 0, event 3 has
    no capacity and no attendees column. *)
Definition three_events : gmap Z Event.t :=
  <[1 := fair 1 (Some 1) (Some "amy@mergington.edu")]>
    (<[2 := fair 2 (Some 0) (Some "amy@mergington.edu")]>
       (<[3 := fair 3 None None]> ∅)).



(** A news body with the [published_at] it was sent with, and a clock
    reading. *)
Definition bulletin (published_at : option News.sent) : News.request :=
  News.mkRequest None "Science fair winners" (Some "Congratulations to all")
                 (Some "Ms. Rivera") published_at (Some "science").

Definition noon : datetime := Datetime 2025 3 14 12 0 0 0.

(** A registry whose only activity is already at its [max_participants]. *)
Definition full_club : gmap string Activity :=
  {[ "Tiny Club" := mkActivity "Two seats only" "Mondays, 3:30 PM - 4:30 PM" 2
                      ["amy@mergington.edu"; "bob@mergington.edu"] ]}.

Definition school : world := mkWorld full_club three_events.



(** * Properties *)

Example parse_demo :
  _parse_attendees (Some "a@x,,b@x,") = ["a@x"; "b@x"]
  ∧ _parse_attendees None = [] ∧ _parse_attendees (Some "") = []
  ∧ _join_attendees ["a@x"; "b@x"] = "a@x,b@x".
Proof. repeat split. Qed.

Example chess_demo :
  (signup_for_activity "Chess Club" "test@mergington.edu" activities).1
  = inr (mkMessage "Signed up test@mergington.edu for Chess Club").
Proof. vm_compute. reflexivity. Qed.

(** ** The encoding *)

Section Encoding.

Lemma split_not_nil sep s : split sep s ≠ [].
Proof. destruct s as [|c s]; simpl; [done|]. by repeat case_match. Qed.

Lemma split_comma_free s : has_comma s = false → split "," s = [s].
Proof.
  induction s as [|c s IH]; simpl; [done|].
  intros [Hc Hs]%orb_false_elim. rewrite Hc, (IH Hs). done.
Qed.

Lemma split_app_comma x rest :
  has_comma x = false →
  split "," (x +:+ "," +:+ rest) = x :: split "," rest.
Proof.
  induction x as [|c x IH]; simpl; [done|].
  intros [Hc Hx]%orb_false_elim. rewrite Hc, (IH Hx). done.
Qed.

Lemma split_segments_comma_free s :
  Forall (λ e, has_comma e = false) (split "," s).
Proof.
  induction s as [|c s IH]; simpl; [by repeat constructor|].
  destruct (Ascii.eqb c ",") eqn:Hc; [by constructor|].
  destruct (split "," s) as [|seg segs]; [by repeat constructor; simpl; rewrite Hc|].
  inversion_clear IH as [|?? Hseg Hsegs].
  constructor; [simpl; by rewrite Hc, Hseg|done].
Qed.

(** Both branches of [_parse_attendees] are the filtered split. *)
Lemma parse_Some s :
  _parse_attendees (Some s) = filter (λ e, truthy_str e = true) (split "," s).
Proof. by destruct s. Qed.

Lemma parse_None : _parse_attendees None = [].
Proof. done. Qed.

Lemma parse_encodable s : Forall encodable (_parse_attendees s).
Proof.
  destruct s as [s|]; [|by constructor]. rewrite parse_Some.
  apply Forall_forall. intros e [He Hin]%list_elem_of_filter. split; [done|].
  by eapply (proj1 (Forall_forall _ _) (split_segments_comma_free s)).
Qed.

Lemma parse_no_empty s : "" ∉ _parse_attendees s.
Proof.
  intros Hin. by destruct (proj1 (Forall_forall _ _) (parse_encodable s) _ Hin).
Qed.

Lemma join_cons x y rest :
  join "," (x :: y :: rest) = x +:+ "," +:+ join "," (y :: rest).
Proof. done. Qed.

(** Decoding what [_join_attendees] wrote: encodable members come back as they
    are, whatever the last member is. *)
Lemma parse_join_snoc lst last :
  Forall encodable lst →
  _parse_attendees (Some (_join_attendees (lst ++ [last])))
  = lst ++ _parse_attendees (Some last).
Proof.
  rewrite !parse_Some. unfold _join_attendees.
  induction 1 as [|x lst [Hne Hcf] _ IH]; simpl; [done|].
  destruct (lst ++ [last]) as [|y rest] eqn:Heq; [by destruct lst|].
  change (String.concat "," (y :: rest)) with (join "," (y :: rest)) in *.
  rewrite split_app_comma by done.
  rewrite filter_cons_True by done. by rewrite IH.
Qed.

Lemma parse_encodable_id e : encodable e → _parse_attendees (Some e) = [e].
Proof.
  intros [Hne Hcf]. rewrite parse_Some, split_comma_free by done.
  by rewrite filter_cons_True.
Qed.

(** The round trip of the encoding on encodable members. *)
Lemma parse_join lst :
  Forall encodable lst → _parse_attendees (Some (_join_attendees lst)) = lst.
Proof.
  destruct lst as [|x lst _] using rev_ind; [done|].
  intros [Hlst Hx%Forall_inv]%Forall_app.
  by rewrite parse_join_snoc, parse_encodable_id.
Qed.

End Encoding.

(** Closes a decidable goal on concrete data by evaluating its decision. *)
Ltac by_decide := apply (bool_decide_unpack _); vm_compute; exact I.

(** Closes [x ∉ [y1; ...; yn]] from hypotheses [x ≠ yi] or [yi ≠ x]. *)
Ltac not_listed :=
  simpl; rewrite ?not_elem_of_cons;
  repeat split; first [congruence | apply not_elem_of_nil].

(** ** The persistence layer *)

Lemma foldr_max_ge (k : Z) (ks : list Z) (x : Z) :
  x ∈ k :: ks → x ≤ foldr Z.max k ks.
Proof.
  induction ks as [|y ks IH]; simpl.
  - intros ->%list_elem_of_singleton. lia.
  - intros [->|[->|Hin]%elem_of_cons]%elem_of_cons.
    + etrans; [apply IH; by left|lia].
    + lia.
    + etrans; [apply IH; by right|lia].
Qed.

(** Among the first [size tbl + 1] positive integers one is not a key. *)
Lemma unused_rowid_fresh {R} (tbl : gmap Z R) : tbl !! unused_rowid tbl = None.
Proof.
  unfold unused_rowid.
  set (candidates := seqZ 1 (Z.of_nat (size tbl) + 1)).
  destruct (filter (λ key, key ∉ dom tbl) candidates) as [|key rest] eqn:Hfree.
  - exfalso.
    assert (list_to_set candidates ⊆ dom tbl) as Hsub.
    { intros key Hkey%elem_of_list_to_set.
      destruct (decide (key ∈ dom tbl)) as [|Hout]; [done|].
      assert (key ∈ filter (λ key, key ∉ dom tbl) candidates) as Hin
        by by apply list_elem_of_filter.
      rewrite Hfree in Hin. by apply elem_of_nil in Hin. }
    apply subseteq_size in Hsub.
    rewrite size_list_to_set, size_dom in Hsub by apply NoDup_seqZ.
    subst candidates. rewrite length_seqZ in Hsub. lia.
  - simpl. apply not_elem_of_dom.
    assert (key ∈ filter (λ key, key ∉ dom tbl) candidates) as Hin
      by (rewrite Hfree; by left).
    by apply list_elem_of_filter in Hin as [? _].
Qed.

(** The key given to a row inserted without one is not in use. *)
Lemma next_rowid_fresh {R} (tbl : gmap Z R) : tbl !! next_rowid tbl = None.
Proof.
  remember (next_rowid tbl) as next eqn:Hnext.
  destruct (tbl !! next) as [row|] eqn:Hget; [|done].
  pose proof Hget as Hlist. apply elem_of_map_to_list in Hlist.
  assert (next ∈ (map_to_list tbl).*1) as Hin.
  { apply list_elem_of_fmap. by exists (next, row). }
  unfold next_rowid in Hnext.
  destruct ((map_to_list tbl).*1) as [|k ks]; [by apply elem_of_nil in Hin|].
  destruct (decide (foldr Z.max k ks < max_rowid)).
  - apply foldr_max_ge in Hin. lia.
  - subst next. by rewrite unused_rowid_fresh in Hget.
Qed.

(** ** Running the event handlers *)

Lemma py_in_true x lst : py_in x lst = true ↔ x ∈ lst.
Proof. unfold py_in. by rewrite bool_decide_eq_true. Qed.

Lemma py_in_false x lst : py_in x lst = false ↔ x ∉ lst.
Proof. unfold py_in. by rewrite bool_decide_eq_false. Qed.

Lemma is_full_true capacity attendees :
  is_full capacity attendees = true
  ↔ ∃ c, capacity = Some c ∧ c ≠ 0 ∧ c ≤ len attendees.
Proof.
  unfold is_full, truthy_int. destruct capacity as [c|].
  - rewrite andb_true_iff, negb_true_iff, Z.eqb_neq, Z.leb_le.
    split; [intros []; eauto|intros (? & [= <-] & ? & ?); done].
  - split; [done|intros (? & ? & _); done].
Qed.

Lemma is_full_false capacity attendees :
  is_full capacity attendees = false
  ↔ capacity = None ∨ capacity = Some 0
    ∨ ∃ c, capacity = Some c ∧ len attendees < c.
Proof.
  unfold is_full, truthy_int. destruct capacity as [c|].
  - rewrite andb_false_iff, negb_false_iff, Z.eqb_eq, Z.leb_gt. split.
    + intros [->|?]; eauto.
    + intros [?|[[= ->]|(? & [= <-] & ?)]]; auto. done.
  - split; auto.
Qed.

Lemma signup_event_missing tbl event_id email :
  tbl !! event_id = None →
  signup_event event_id email tbl
  = (inl (HTTPException 404 "Event not found"), tbl).
Proof. intros Hget. unfold signup_event, bind, session_get. by rewrite Hget. Qed.

(** The three ways [signup_event] leaves a stored event. *)
Lemma signup_event_found tbl event_id event email :
  tbl !! event_id = Some event →
  signup_event event_id email tbl
  = let attendees := _parse_attendees (Event.attendees event) in
    if py_in email attendees
    then (inl (HTTPException 400 "Already signed up"), tbl)
    else if is_full (Event.capacity event) attendees
    then (inl (HTTPException 400 "Event is full"), tbl)
    else (inr (mkMessage ("Signed up " +:+ email)),
          <[event_id := Event.set_attendees
                          (Some (_join_attendees (attendees ++ [email])))
                          (Event.set_id (Some event_id) event)]> tbl).
Proof.
  intros Hget. unfold signup_event, bind, session_get. rewrite Hget. simpl.
  destruct (py_in email _); [done|].
  destruct (is_full _ _); [done|].
  unfold session_update, raise_if, ret. simpl. by rewrite decide_True.
Qed.

Lemma unregister_event_found tbl event_id event email :
  tbl !! event_id = Some event →
  unregister_event event_id email tbl
  = let attendees := _parse_attendees (Event.attendees event) in
    if py_in email attendees
    then (inr (mkMessage ("Unregistered " +:+ email)),
          <[event_id := Event.set_attendees
                          (Some (_join_attendees (py_remove email attendees)))
                          (Event.set_id (Some event_id) event)]> tbl)
    else (inl (HTTPException 400 "Not signed up"), tbl).
Proof.
  intros Hget. unfold unregister_event, bind, session_get. rewrite Hget. simpl.
  destruct (py_in email _); [|done].
  unfold session_update, raise_if, ret. simpl. by rewrite decide_True.
Qed.

Lemma unregister_event_missing tbl event_id email :
  tbl !! event_id = None →
  unregister_event event_id email tbl
  = (inl (HTTPException 404 "Event not found"), tbl).
Proof. intros Hget. unfold unregister_event, bind, session_get. by rewrite Hget. Qed.

Lemma checkin_event_store tbl event_id email :
  (checkin_event event_id email tbl).2 = tbl.
Proof.
  unfold checkin_event, bind, session_get.
  destruct (tbl !! event_id); simpl; [|done]. by destruct (py_in email _).
Qed.

(** ** Capacity *)

(** C1. An event whose capacity is set and non-zero and whose decoded attendee
    list is at least that long rejects the signup of an email that is not yet
    present with 400 "Event is full", and its table (so its attendees string)
    stays as it was; an event whose capacity is unset or 0 never answers
    "Event is full", and signs up every email that is not yet present. *)
Theorem signup_event_capacity tbl event_id event email :
  tbl !! event_id = Some event →
  let attendees := _parse_attendees (Event.attendees event) in
  let outcome := signup_event event_id email tbl in
  (∀ c, Event.capacity event = Some c → c ≠ 0 → c ≤ len attendees →
        email ∉ attendees →
        outcome = (inl (HTTPException 400 "Event is full"), tbl)
        ∧ http_status outcome.1 = 400
        ∧ Event.attendees <$> outcome.2 !! event_id = Some (Event.attendees event))
  ∧ (Event.capacity event = None ∨ Event.capacity event = Some 0 →
        outcome.1 ≠ inl (HTTPException 400 "Event is full")
        ∧ (email ∉ attendees → http_status outcome.1 = 200)).
Proof.
  intros Hget attendees outcome. subst outcome.
  rewrite (signup_event_found _ _ _ _ Hget). fold attendees. simpl. split.
  - intros c Hc Hnz Hle Hnew%py_in_false. rewrite Hnew.
    assert (is_full (Event.capacity event) attendees = true) as ->.
    { apply is_full_true. eauto. }
    simpl. by rewrite Hget.
  - intros Hcap.
    assert (is_full (Event.capacity event) attendees = false) as ->.
    { apply is_full_false. tauto. }
    split.
    + by destruct (py_in email attendees).
    + by intros ->%py_in_false.
Qed.

Lemma signup_event_capacity_witness :
  signup_event 1 "bob@mergington.edu" three_events
  = (inl (HTTPException 400 "Event is full"), three_events)
  ∧ (signup_event 2 "bob@mergington.edu" three_events).1
    ≠ inl (HTTPException 400 "Event is full")
  ∧ (signup_event 3 "bob@mergington.edu" three_events).1
    ≠ inl (HTTPException 400 "Event is full").
Proof.
  split; [|split].
  - apply (proj1 (signup_event_capacity three_events 1
                    (fair 1 (Some 1) (Some "amy@mergington.edu"))
                    "bob@mergington.edu" eq_refl) 1).
    + reflexivity.
    + lia.
    + vm_compute. discriminate.
    + by_decide.
  - apply (proj2 (signup_event_capacity three_events 2
                    (fair 2 (Some 0) (Some "amy@mergington.edu"))
                    "bob@mergington.edu" eq_refl)).
    right. reflexivity.
  - apply (proj2 (signup_event_capacity three_events 3 (fair 3 None None)
                    "bob@mergington.edu" eq_refl)).
    left. reflexivity.
Defined.

(** ** The empty email *)

(** What [signup_event] stores decodes to the old members followed by the
    segments of the new email. *)
Lemma signup_event_decoded event event_id email :
  _parse_attendees
    (Event.attendees
       (Event.set_attendees
          (Some (_join_attendees
                   (_parse_attendees (Event.attendees event) ++ [email])))
          (Event.set_id (Some event_id) event)))
  = _parse_attendees (Event.attendees event) ++ _parse_attendees (Some email).
Proof. simpl. apply parse_join_snoc, parse_encodable. Qed.

(** C10. On a stored event with remaining capacity, signing up the empty
    email answers with the success message; the decoded attendee list
    afterwards is the one before, without the empty string in it; and the same
    signup succeeds again rather than being refused as a duplicate. *)
Theorem signup_event_empty_email tbl event_id event :
  tbl !! event_id = Some event →
  let attendees := _parse_attendees (Event.attendees event) in
  (Event.capacity event = None ∨ Event.capacity event = Some 0
   ∨ (∃ c, Event.capacity event = Some c ∧ len attendees < c)) →
  ∃ tbl' event' tbl'',
    signup_event event_id "" tbl = (inr (mkMessage "Signed up "), tbl')
    ∧ tbl' !! event_id = Some event'
    ∧ ("" ∉ _parse_attendees (Event.attendees event'))
    ∧ _parse_attendees (Event.attendees event') = attendees
    ∧ signup_event event_id "" tbl' = (inr (mkMessage "Signed up "), tbl'').
Proof.
  intros Hget attendees Hroom%is_full_false.
  pose proof (parse_no_empty (Event.attendees event)) as Hno%py_in_false.
  fold attendees in Hno.
  set (event' := Event.set_attendees (Some (_join_attendees (attendees ++ [""])))
                   (Event.set_id (Some event_id) event)).
  assert (_parse_attendees (Event.attendees event') = attendees) as Hdec.
  { subst event' attendees. rewrite signup_event_decoded.
    by rewrite (parse_Some ""), app_nil_r. }
  eexists (<[event_id := event']> tbl), event', _. repeat split.
  - rewrite (signup_event_found _ _ _ _ Hget). fold attendees. simpl.
    by rewrite Hno, Hroom.
  - apply lookup_insert_eq.
  - apply parse_no_empty.
  - done.
  - rewrite (signup_event_found _ _ event') by apply lookup_insert_eq.
    cbv zeta. rewrite Hdec, Hno.
    change (Event.capacity event') with (Event.capacity event).
    by rewrite Hroom.
Qed.

Lemma signup_event_empty_email_witness :
  ∃ tbl' event' tbl'',
    signup_event 3 "" three_events = (inr (mkMessage "Signed up "), tbl')
    ∧ tbl' !! 3 = Some event'
    ∧ ("" ∉ _parse_attendees (Event.attendees event'))
    ∧ _parse_attendees (Event.attendees event') = []
    ∧ signup_event 3 "" tbl' = (inr (mkMessage "Signed up "), tbl'').
Proof.
  apply (signup_event_empty_email three_events 3 (fair 3 None None) eq_refl).
  left. reflexivity.
Defined.

(** ** Checkin *)



(** ** The round trip through the attendee encoding *)

Lemma create_event_stored tbl event created tbl1 :
  create_event event tbl = (inr created, tbl1) →
  ∃ key, Event.id created = Some key
         ∧ tbl1 !! key = Some created
         ∧ Event.attendees created = Event.attendees event.
Proof.
  unfold create_event, session_insert. simpl.
  destruct (Event.id event) as [key|] eqn:Hid.
  - destruct (in_int64 key); simpl; [|done].
    destruct (tbl !! key) eqn:Hget; intros [= <- <-].
    exists key. by rewrite lookup_insert_eq.
  - intros [= <- <-]. eexists. by rewrite lookup_insert_eq.
Qed.

Lemma get_event_found tbl event_id event :
  tbl !! event_id = Some event →
  get_event event_id tbl = (inr (Event.set_id (Some event_id) event), tbl).
Proof. intros Hget. unfold get_event, bind, session_get. by rewrite Hget. Qed.

(** A signup that succeeds found the event, found the email absent, and left
    the old members followed by the segments of the email. *)
Lemma signup_event_ok tbl event_id email msg tbl' :
  signup_event event_id email tbl = (inr msg, tbl') →
  ∃ members,
    attendees_of tbl event_id = Some members
    ∧ (email ∉ members)
    ∧ attendees_of tbl' event_id
      = Some (members ++ _parse_attendees (Some email)).
Proof.
  unfold attendees_of. destruct (tbl !! event_id) as [event|] eqn:Hget.
  - rewrite (signup_event_found _ _ _ _ Hget). cbv zeta.
    destruct (py_in email _) eqn:Hin; [done|].
    destruct (is_full _ _); [done|]. intros [= <- <-].
    eexists. split; [done|]. split; [by apply py_in_false|].
    rewrite lookup_insert_eq. simpl. f_equal.
    apply parse_join_snoc, parse_encodable.
  - by rewrite (signup_event_missing _ _ _ Hget).
Qed.

(** A signup that has to succeed: the event is stored, the email is new and
    encodable, and the event has no capacity limit. *)
Lemma signup_event_succeeds tbl event_id event email :
  tbl !! event_id = Some event →
  email ∉ _parse_attendees (Event.attendees event) →
  encodable email →
  Event.capacity event = None ∨ Event.capacity event = Some 0 →
  ∃ event',
    signup_event event_id email tbl
    = (inr (mkMessage ("Signed up " +:+ email)), <[event_id := event']> tbl)
    ∧ _parse_attendees (Event.attendees event')
      = _parse_attendees (Event.attendees event) ++ [email]
    ∧ Event.capacity event' = Event.capacity event.
Proof.
  intros Hget Hnew%py_in_false Henc Hcap. eexists. split; [|split].
  - rewrite (signup_event_found _ _ _ _ Hget). cbv zeta. rewrite Hnew.
    assert (is_full (Event.capacity event)
              (_parse_attendees (Event.attendees event)) = false) as ->
      by (apply is_full_false; tauto).
    reflexivity.
  - by rewrite signup_event_decoded, parse_encodable_id.
  - done.
Qed.

(** The premises of the round trip can always be met: a body without id and
    without capacity limit is stored, and three distinct encodable emails are
    signed up one after the other. *)
Lemma signup_three_succeeds tbl event e1 e2 e3 :
  Event.id event = None →
  Event.attendees event = None ∨ Event.attendees event = Some "" →
  Event.capacity event = None ∨ Event.capacity event = Some 0 →
  encodable e1 → encodable e2 → encodable e3 →
  e1 ≠ e2 → e1 ≠ e3 → e2 ≠ e3 →
  ∃ created event_id tbl1 tbl2 tbl3 tbl4,
    create_event event tbl = (inr created, tbl1)
    ∧ Event.id created = Some event_id
    ∧ signup_event event_id e1 tbl1 = (inr (mkMessage ("Signed up " +:+ e1)), tbl2)
    ∧ signup_event event_id e2 tbl2 = (inr (mkMessage ("Signed up " +:+ e2)), tbl3)
    ∧ signup_event event_id e3 tbl3 = (inr (mkMessage ("Signed up " +:+ e3)), tbl4).
Proof.
  intros Hid Hempty Hcap He1 He2 He3 H12 H13 H23.
  set (key := next_rowid tbl).
  set (created := Event.set_id (Some key) event).
  assert (_parse_attendees (Event.attendees created) = []) as Hdec0.
  { simpl. by destruct Hempty as [-> | ->]. }
  destruct (signup_event_succeeds (<[key := created]> tbl) key created e1)
    as (ev1 & Hrun1 & Hdec1 & Hcap1);
    [apply lookup_insert_eq|rewrite Hdec0; apply not_elem_of_nil|done|done|].
  destruct (signup_event_succeeds (<[key := ev1]> (<[key := created]> tbl))
              key ev1 e2)
    as (ev2 & Hrun2 & Hdec2 & Hcap2);
    [apply lookup_insert_eq|rewrite Hdec1, Hdec0; not_listed|done
    |by rewrite Hcap1|].
  destruct (signup_event_succeeds
              (<[key := ev2]> (<[key := ev1]> (<[key := created]> tbl)))
              key ev2 e3)
    as (ev3 & Hrun3 & _ & _);
    [apply lookup_insert_eq|rewrite Hdec2, Hdec1, Hdec0; not_listed|done
    |by rewrite Hcap2, Hcap1|].
  exists created, key. do 4 eexists.
  split; [|split; [done|split; [exact Hrun1|split; [exact Hrun2|exact Hrun3]]]].
  unfold create_event, session_insert. simpl. by rewrite Hid.
Qed.

(** C2 (amended). An event is created with its attendees empty, three emails
    that are non-empty and free of commas are signed up one after the other,
    each signup succeeding; reading the event then gives a record whose decoded
    attendee list is exactly the three emails in the order of the signups. *)
Theorem signup_three_roundtrip tbl event created event_id e1 e2 e3
    tbl1 tbl2 tbl3 tbl4 m1 m2 m3 :
  Event.attendees event = None ∨ Event.attendees event = Some "" →
  encodable e1 → encodable e2 → encodable e3 →
  create_event event tbl = (inr created, tbl1) →
  Event.id created = Some event_id →
  signup_event event_id e1 tbl1 = (inr m1, tbl2) →
  signup_event event_id e2 tbl2 = (inr m2, tbl3) →
  signup_event event_id e3 tbl3 = (inr m3, tbl4) →
  ∃ read,
    get_event event_id tbl4 = (inr read, tbl4)
    ∧ _parse_attendees (Event.attendees read) = [e1; e2; e3].
Proof.
  intros Hempty He1 He2 He3 Hcreate Hid Hs1 Hs2 Hs3.
  apply create_event_stored in Hcreate as (key & Hkey & Hget1 & Hatt).
  assert (key = event_id) as -> by congruence.
  assert (attendees_of tbl1 event_id = Some []) as H1.
  { unfold attendees_of. rewrite Hget1. simpl. rewrite Hatt.
    by destruct Hempty as [-> | ->]. }
  apply signup_event_ok in Hs1 as (l1 & Hl1 & _ & H2).
  apply signup_event_ok in Hs2 as (l2 & Hl2 & _ & H3).
  apply signup_event_ok in Hs3 as (l3 & Hl3 & _ & H4).
  rewrite parse_encodable_id in H2, H3, H4 by done.
  assert (l1 = []) as -> by congruence. simpl in H2.
  assert (l2 = [e1]) as -> by congruence. simpl in H3.
  assert (l3 = [e1; e2]) as -> by congruence. simpl in H4.
  unfold attendees_of in H4.
  destruct (tbl4 !! event_id) as [stored|] eqn:Hget4; [|done].
  eexists. split; [by apply get_event_found|].
  simpl in *. congruence.
Qed.

Lemma signup_three_roundtrip_witness :
  ∃ read,
    get_event 1
      (<[1 := fair 1 (Some 3)
               (Some "amy@mergington.edu,bob@mergington.edu,cat@mergington.edu")]> ∅)
    = (inr read,
       <[1 := fair 1 (Some 3)
               (Some "amy@mergington.edu,bob@mergington.edu,cat@mergington.edu")]> ∅)
    ∧ _parse_attendees (Event.attendees read)
      = ["amy@mergington.edu"; "bob@mergington.edu"; "cat@mergington.edu"].
Proof.
  apply (signup_three_roundtrip ∅ (new_fair (Some 3)) (fair 1 (Some 3) None) 1
           "amy@mergington.edu" "bob@mergington.edu" "cat@mergington.edu"
           (<[1 := fair 1 (Some 3) None]> ∅)
           (<[1 := fair 1 (Some 3) (Some "amy@mergington.edu")]> ∅)
           (<[1 := fair 1 (Some 3)
                    (Some "amy@mergington.edu,bob@mergington.edu")]> ∅)
           _
           (mkMessage "Signed up amy@mergington.edu")
           (mkMessage "Signed up bob@mergington.edu")
           (mkMessage "Signed up cat@mergington.edu"));
    first [by left | by split | by vm_compute].
Defined.

(** C2 as stated fails: an email with a comma in it is signed up without
    complaint and comes back as two attendees. *)
Lemma signup_three_roundtrip_comma :
  ∃ tbl1 tbl2 tbl3 tbl4 read,
    create_event (new_fair None) ∅ = (inr (fair 1 None None), tbl1)
    ∧ signup_event 1 "amy@mergington.edu,bob@mergington.edu" tbl1
      = (inr (mkMessage "Signed up amy@mergington.edu,bob@mergington.edu"), tbl2)
    ∧ signup_event 1 "cat@mergington.edu" tbl2
      = (inr (mkMessage "Signed up cat@mergington.edu"), tbl3)
    ∧ signup_event 1 "dan@mergington.edu" tbl3
      = (inr (mkMessage "Signed up dan@mergington.edu"), tbl4)
    ∧ get_event 1 tbl4 = (inr read, tbl4)
    ∧ _parse_attendees (Event.attendees read)
      = ["amy@mergington.edu"; "bob@mergington.edu";
         "cat@mergington.edu"; "dan@mergington.edu"]
    ∧ _parse_attendees (Event.attendees read)
      ≠ ["amy@mergington.edu,bob@mergington.edu";
         "cat@mergington.edu"; "dan@mergington.edu"].
Proof.
  do 5 eexists.
  split; [vm_compute; reflexivity|].
  split; [vm_compute; reflexivity|].
  split; [vm_compute; reflexivity|].
  split; [vm_compute; reflexivity|].
  split; [vm_compute; reflexivity|].
  split; [vm_compute; reflexivity|].
  vm_compute. discriminate.
Qed.

(** ** Partial update *)



Lemma update_event_found tbl event_id payload event :
  tbl !! event_id = Some event →
  update_event event_id payload tbl
  = session_update event_id
      (apply_payload payload (Event.set_id (Some event_id) event)) tbl.
Proof. intros Hget. unfold update_event, bind, session_get. by rewrite Hget. Qed.




(** ** News creation *)

(** With a library that takes the clock reading, a body without id and
    without [published_at] (absent, null or the empty text) is stored with
    [published_at] set to the clock reading. *)
Lemma create_news_default accepted utcnow item tbl :
  News.r_id item = None →
  truthy_opt truthy_sent (News.r_published_at item) = false →
  accepted utcnow = true →
  ∃ key stored,
    create_news accepted utcnow item tbl = (inr stored, <[key := stored]> tbl)
    ∧ tbl !! key = None
    ∧ News.id stored = Some key
    ∧ News.published_at stored = Some utcnow
    ∧ News.title stored = News.r_title item.
Proof.
  intros Hid Hfalsy Haccepted. unfold create_news. rewrite Hfalsy. simpl.
  rewrite Haccepted. unfold session_insert. simpl. rewrite Hid.
  eexists _, _. split; [reflexivity|]. split; [apply next_rowid_fresh|done].
Qed.

(** A [datetime] object passed by a caller inside Python is kept, when the
    library takes it. *)
Lemma create_news_datetime_kept accepted utcnow item tbl given :
  News.r_id item = None →
  News.r_published_at item = Some (News.At given) →
  accepted given = true →
  ∃ key stored,
    create_news accepted utcnow item tbl = (inr stored, <[key := stored]> tbl)
    ∧ News.id stored = Some key
    ∧ News.published_at stored = Some given.
Proof.
  intros Hid Hgiven Haccepted. unfold create_news. rewrite Hgiven. simpl.
  rewrite Hgiven. simpl. rewrite Haccepted.
  unfold session_insert. simpl. rewrite Hid.
  by eexists _, _.
Qed.

(** C8. Where [create_news] departs from the claim: a [published_at] supplied
    in a request body reaches the handler as text; a non-empty text is truthy,
    so the handler keeps it, and the INSERT refuses it for the DateTime
    column.  The call ends in an unhandled error (status 500), no record is
    stored or returned and the table is as it was, whatever the clock, the
    library release and the rest of the body: the supplied value is not
    stored as given. *)
Theorem create_news_text_refused accepted utcnow item tbl s :
  News.r_published_at item = Some (News.Text s) →
  s ≠ "" →
  create_news accepted utcnow item tbl = (inl StatementError, tbl)
  ∧ http_status (create_news accepted utcnow item tbl).1 = 500
  ∧ ¬ ∃ stored tbl',
        create_news accepted utcnow item tbl = (inr stored, tbl').
Proof.
  intros Hsent Hne.
  assert (create_news accepted utcnow item tbl = (inl StatementError, tbl))
    as Hrun.
  { unfold create_news. rewrite Hsent. simpl.
    destruct s as [|c s]; [done|]. simpl. by rewrite Hsent. }
  rewrite Hrun. split; [done|]. split; [done|]. by intros (? & ? & ?).
Qed.

Lemma create_news_text_refused_witness :
  create_news (λ _, true) noon
    (bulletin (Some (News.Text "2025-03-14T12:00:00"))) ∅
  = (inl StatementError, ∅)
  ∧ http_status
      (create_news (λ _, true) noon
         (bulletin (Some (News.Text "2025-03-14T12:00:00"))) ∅).1 = 500
  ∧ ¬ ∃ stored tbl',
        create_news (λ _, true) noon
          (bulletin (Some (News.Text "2025-03-14T12:00:00"))) ∅
        = (inr stored, tbl').
Proof.
  apply (create_news_text_refused (λ _, true) noon
           (bulletin (Some (News.Text "2025-03-14T12:00:00"))) ∅
           "2025-03-14T12:00:00").
  - reflexivity.
  - discriminate.
Defined.

Example create_news_demo :
  create_news (λ _, true) noon (bulletin None) ∅
  = (inr (News.mk (Some 1) "Science fair winners"
            (Some "Congratulations to all") (Some "Ms. Rivera") (Some noon)
            (Some "science")),
     {[ 1 := News.mk (Some 1) "Science fair winners"
               (Some "Congratulations to all") (Some "Ms. Rivera") (Some noon)
               (Some "science") ]})
  ∧ create_news (λ _, false) noon (bulletin None) ∅ = (inl StatementError, ∅).
Proof. split; vm_compute; reflexivity. Qed.

(** ** The activity registry *)

Section PyList.
Implicit Types (x y : string) (lst : list string).

Lemma py_count_app x lst1 lst2 :
  py_count x (lst1 ++ lst2) = (py_count x lst1 + py_count x lst2)%nat.
Proof. unfold py_count. by rewrite filter_app, length_app. Qed.

Lemma py_count_absent x lst : x ∉ lst → py_count x lst = 0%nat.
Proof.
  unfold py_count. induction lst as [|y lst IH]; [done|].
  intros [Hne Hout]%not_elem_of_cons.
  rewrite filter_cons_False by congruence. auto.
Qed.

Lemma py_remove_absent x lst : x ∉ lst → py_remove x lst = lst.
Proof.
  induction lst as [|y lst IH]; [done|].
  intros [Hne Hout]%not_elem_of_cons. simpl.
  rewrite decide_False by done. by rewrite IH.
Qed.

Lemma py_remove_length x lst :
  x ∈ lst → S (length (py_remove x lst)) = length lst.
Proof.
  induction lst as [|y lst IH]; [by intros ?%elem_of_nil|].
  simpl. destruct (decide (x = y)) as [->|Hne]; [done|].
  intros [?|Hin]%elem_of_cons; [done|]. simpl. by rewrite IH.
Qed.

Lemma py_remove_count x lst :
  x ∈ lst → S (py_count x (py_remove x lst)) = py_count x lst.
Proof.
  unfold py_count. induction lst as [|y lst IH]; [by intros ?%elem_of_nil|].
  simpl. destruct (decide (x = y)) as [->|Hne].
  - intros _. by rewrite filter_cons_True.
  - intros [?|Hin]%elem_of_cons; [done|].
    rewrite !filter_cons_False by congruence. auto.
Qed.

Lemma py_remove_count_other x y lst :
  y ≠ x → py_count y (py_remove x lst) = py_count y lst.
Proof.
  intros Hne. unfold py_count. induction lst as [|z lst IH]; [done|]. simpl.
  destruct (decide (x = z)) as [<-|Hz].
  - by rewrite filter_cons_False by congruence.
  - destruct (decide (z = y)) as [->|Hzy].
    + rewrite !filter_cons_True by done. simpl. by rewrite IH.
    + by rewrite !filter_cons_False by done.
Qed.

Lemma py_remove_subset x y lst : y ∈ py_remove x lst → y ∈ lst.
Proof.
  induction lst as [|z lst IH]; [done|]. simpl.
  destruct (decide (x = z)); [by right|].
  intros [->|Hin]%elem_of_cons; [by left|right; auto].
Qed.

Lemma py_remove_NoDup x lst : NoDup lst → NoDup (py_remove x lst).
Proof.
  induction 1 as [|y lst Hout Hnd IH]; [constructor|]. simpl.
  destruct (decide (x = y)); [done|].
  constructor; [|done]. intros Hin. by apply Hout, (py_remove_subset x).
Qed.

Lemma py_remove_NoDup_gone x lst : NoDup lst → x ∉ py_remove x lst.
Proof.
  induction 1 as [|y lst Hout Hnd IH]; [by intros ?%elem_of_nil|]. simpl.
  destruct (decide (x = y)) as [->|Hne]; [done|].
  by intros [?|?]%elem_of_cons.
Qed.

Lemma py_remove_Forall (P : string → Prop) x lst :
  Forall P lst → Forall P (py_remove x lst).
Proof.
  rewrite !Forall_forall. intros HP y Hin. by apply HP, (py_remove_subset x).
Qed.

End PyList.

Lemma contains_middle pre sub post : contains (pre +:+ sub +:+ post) sub.
Proof. by exists pre, post. Qed.

Lemma append_String c s t : String c s +:+ t = String c (s +:+ t).
Proof. reflexivity. Qed.

Lemma append_nil_r s : s +:+ "" = s.
Proof.
  induction s as [|c s IH]; [done|]. by rewrite append_String, IH.
Qed.

Lemma append_assoc s t u : (s +:+ t) +:+ u = s +:+ t +:+ u.
Proof.
  induction s as [|c s IH]; [done|]. by rewrite !append_String, IH.
Qed.

Lemma contains_suffix pre sub : contains (pre +:+ sub) sub.
Proof. exists pre, "". by rewrite append_nil_r. Qed.

Lemma signup_for_activity_found reg activity_name activity email :
  reg !! activity_name = Some activity →
  signup_for_activity activity_name email reg
  = if py_in email (participants activity)
    then (inl (HTTPException 400 "Student is already signed up"), reg)
    else (inr (mkMessage ("Signed up " +:+ email +:+ " for " +:+ activity_name)),
          <[activity_name :=
              set_participants (participants activity ++ [email]) activity]> reg).
Proof.
  intros Hget. unfold signup_for_activity, bind, get_store. rewrite Hget.
  by destruct (py_in email _).
Qed.

Lemma unregister_from_activity_found reg activity_name activity email :
  reg !! activity_name = Some activity →
  unregister_from_activity activity_name email reg
  = if py_in email (participants activity)
    then (inr (mkMessage ("Unregistered " +:+ email +:+ " from " +:+ activity_name)),
          <[activity_name :=
              set_participants (py_remove email (participants activity)) activity]>
            reg)
    else (inl (HTTPException 400 "Student is not signed up for this activity"),
          reg).
Proof.
  intros Hget. unfold unregister_from_activity, bind, get_store. rewrite Hget.
  by destruct (py_in email _).
Qed.

(** C3. For an activity in the registry and an email that is not among its
    participants, [signup_for_activity] succeeds whatever [max_participants]
    and the length of the list are: the email is appended, so it is in the list
    exactly once afterwards, nothing else of the activity changes, and the
    message returned names both the email and the activity. *)
Theorem signup_for_activity_appends reg activity_name activity email :
  reg !! activity_name = Some activity →
  email ∉ participants activity →
  ∃ msg activity',
    signup_for_activity activity_name email reg
    = (inr (mkMessage msg), <[activity_name := activity']> reg)
    ∧ participants activity' = participants activity ++ [email]
    ∧ py_count email (participants activity') = 1%nat
    ∧ max_participants activity' = max_participants activity
    ∧ act_description activity' = act_description activity
    ∧ schedule activity' = schedule activity
    ∧ msg = "Signed up " +:+ email +:+ " for " +:+ activity_name
    ∧ contains msg email ∧ contains msg activity_name.
Proof.
  intros Hget Hnew. eexists _, _. split.
  - rewrite (signup_for_activity_found _ _ _ _ Hget).
    apply py_in_false in Hnew as ->. reflexivity.
  - simpl. repeat split.
    + rewrite py_count_app, py_count_absent by done.
      unfold py_count. by rewrite filter_cons_True.
    + apply contains_middle.
    + rewrite <-!append_assoc. apply contains_suffix.
Qed.

Lemma signup_for_activity_appends_witness :
  ∃ msg activity',
    signup_for_activity "Tiny Club" "cat@mergington.edu" full_club
    = (inr (mkMessage msg), <["Tiny Club" := activity']> full_club)
    ∧ participants activity'
      = ["amy@mergington.edu"; "bob@mergington.edu"] ++ ["cat@mergington.edu"]
    ∧ py_count "cat@mergington.edu" (participants activity') = 1%nat
    ∧ max_participants activity' = 2
    ∧ act_description activity' = "Two seats only"
    ∧ schedule activity' = "Mondays, 3:30 PM - 4:30 PM"
    ∧ msg = "Signed up " +:+ "cat@mergington.edu" +:+ " for " +:+ "Tiny Club"
    ∧ contains msg "cat@mergington.edu" ∧ contains msg "Tiny Club".
Proof.
  apply (signup_for_activity_appends full_club "Tiny Club"
           (mkActivity "Two seats only" "Mondays, 3:30 PM - 4:30 PM" 2
              ["amy@mergington.edu"; "bob@mergington.edu"])
           "cat@mergington.edu").
  - vm_compute. reflexivity.
  - by_decide.
Defined.

(** C4. Whatever the registry, signing up an email that is already among the
    participants of the named activity answers 400 "Student is already signed
    up" and leaves the registry, so the participant list, as it was.  On the
    seeded registry, signing up test@mergington.edu for "Chess Club" answers
    200 with "Signed up test@mergington.edu for Chess Club", and the same call
    again answers 400. *)
Theorem signup_for_activity_duplicate :
  (∀ reg activity_name activity email,
     reg !! activity_name = Some activity →
     email ∈ participants activity →
     signup_for_activity activity_name email reg
     = (inl (HTTPException 400 "Student is already signed up"), reg))
  ∧ (∃ reg1,
       signup_for_activity "Chess Club" "test@mergington.edu" activities
       = (inr (mkMessage "Signed up test@mergington.edu for Chess Club"), reg1)
       ∧ http_status
           (signup_for_activity "Chess Club" "test@mergington.edu" activities).1
         = 200
       ∧ signup_for_activity "Chess Club" "test@mergington.edu" reg1
         = (inl (HTTPException 400 "Student is already signed up"), reg1)
       ∧ http_status
           (signup_for_activity "Chess Club" "test@mergington.edu" reg1).1
         = 400).
Proof.
  assert (∀ reg activity_name activity email,
     reg !! activity_name = Some activity →
     email ∈ participants activity →
     signup_for_activity activity_name email reg
     = (inl (HTTPException 400 "Student is already signed up"), reg)) as Hdup.
  { intros reg name activity email Hget Hin%py_in_true.
    rewrite (signup_for_activity_found _ _ _ _ Hget). by rewrite Hin. }
  split; [exact Hdup|].
  pose (chess := mkActivity "Learn strategies and compete in chess tournaments"
                   "Fridays, 3:30 PM - 5:00 PM" 12
                   ["michael@mergington.edu"; "daniel@mergington.edu"]).
  assert (activities !! "Chess Club" = Some chess) as Hchess
    by (vm_compute; reflexivity).
  pose proof (signup_for_activity_found _ _ _ "test@mergington.edu" Hchess)
    as Hfirst.
  assert (py_in "test@mergington.edu" (participants chess) = false) as Hnew
    by (vm_compute; reflexivity).
  rewrite Hnew in Hfirst.
  eexists. split; [exact Hfirst|]. split; [by rewrite Hfirst|].
  assert (signup_for_activity "Chess Club" "test@mergington.edu"
            (<["Chess Club" :=
                 set_participants (participants chess ++ ["test@mergington.edu"])
                   chess]> activities)
          = (inl (HTTPException 400 "Student is already signed up"),
             <["Chess Club" :=
                 set_participants (participants chess ++ ["test@mergington.edu"])
                   chess]> activities)) as Hsecond.
  { eapply Hdup; [apply lookup_insert_eq|]. simpl. set_solver. }
  split; [exact Hsecond|]. by rewrite Hsecond.
Qed.

Lemma signup_for_activity_duplicate_witness :
  signup_for_activity "Tiny Club" "amy@mergington.edu" full_club
  = (inl (HTTPException 400 "Student is already signed up"), full_club).
Proof.
  apply (proj1 signup_for_activity_duplicate full_club "Tiny Club"
           (mkActivity "Two seats only" "Mondays, 3:30 PM - 4:30 PM" 2
              ["amy@mergington.edu"; "bob@mergington.edu"])
           "amy@mergington.edu").
  - vm_compute. reflexivity.
  - by_decide.
Defined.

(** C7. [unregister_from_activity] answers 404 when the name is not in the
    registry; answers 400 and leaves the registry as it was when the email is
    not among the activity's participants; and otherwise removes one
    occurrence of the email from the list (the only one, when the list has no
    duplicates), changes nothing else, and returns the confirmation. *)
Theorem unregister_from_activity_cases reg activity_name email :
  (reg !! activity_name = None →
   unregister_from_activity activity_name email reg
   = (inl (HTTPException 404 "Activity not found"), reg))
  ∧ (∀ activity,
       reg !! activity_name = Some activity →
       email ∉ participants activity →
       unregister_from_activity activity_name email reg
       = (inl (HTTPException 400 "Student is not signed up for this activity"),
          reg))
  ∧ (∀ activity,
       reg !! activity_name = Some activity →
       email ∈ participants activity →
       ∃ activity',
         unregister_from_activity activity_name email reg
         = (inr (mkMessage
                   ("Unregistered " +:+ email +:+ " from " +:+ activity_name)),
            <[activity_name := activity']> reg)
         ∧ participants activity' = py_remove email (participants activity)
         ∧ S (length (participants activity')) = length (participants activity)
         ∧ S (py_count email (participants activity'))
           = py_count email (participants activity)
         ∧ (∀ other, other ≠ email →
              py_count other (participants activity')
              = py_count other (participants activity))
         ∧ (NoDup (participants activity) → email ∉ participants activity')
         ∧ max_participants activity' = max_participants activity
         ∧ act_description activity' = act_description activity
         ∧ schedule activity' = schedule activity).
Proof.
  split; [|split].
  - intros Hget. unfold unregister_from_activity, bind, get_store.
    by rewrite Hget.
  - intros activity Hget Hout%py_in_false.
    rewrite (unregister_from_activity_found _ _ _ _ Hget). by rewrite Hout.
  - intros activity Hget Hin. eexists. split.
    { rewrite (unregister_from_activity_found _ _ _ _ Hget).
      apply py_in_true in Hin as ->. reflexivity. }
    simpl. split; [done|].
    split; [by apply py_remove_length|].
    split; [by apply py_remove_count|].
    split; [|split; [apply py_remove_NoDup_gone|done]].
    intros other Hne. by apply py_remove_count_other.
Qed.

Lemma unregister_from_activity_cases_witness :
  unregister_from_activity "Tiny Club" "cat@mergington.edu" full_club
  = (inl (HTTPException 400 "Student is not signed up for this activity"),
     full_club)
  ∧ unregister_from_activity "Chess Club" "amy@mergington.edu" full_club
    = (inl (HTTPException 404 "Activity not found"), full_club)
  ∧ ∃ activity',
      unregister_from_activity "Tiny Club" "amy@mergington.edu" full_club
      = (inr (mkMessage "Unregistered amy@mergington.edu from Tiny Club"),
         <["Tiny Club" := activity']> full_club)
      ∧ participants activity' = ["bob@mergington.edu"].
Proof.
  pose (tiny := mkActivity "Two seats only" "Mondays, 3:30 PM - 4:30 PM" 2
                  ["amy@mergington.edu"; "bob@mergington.edu"]).
  assert (full_club !! "Tiny Club" = Some tiny) as Htiny
    by (vm_compute; reflexivity).
  split; [|split].
  - apply (proj1 (proj2 (unregister_from_activity_cases full_club "Tiny Club"
                           "cat@mergington.edu")) tiny Htiny).
    by_decide.
  - apply (proj1 (unregister_from_activity_cases full_club "Chess Club"
                    "amy@mergington.edu")).
    vm_compute. reflexivity.
  - destruct (proj2 (proj2 (unregister_from_activity_cases full_club "Tiny Club"
                              "amy@mergington.edu")) tiny Htiny)
      as (activity' & Hrun & Hlist & _); [by_decide|].
    exists activity'. split; [exact Hrun|exact Hlist].
Defined.

(** ** Uniqueness of members *)

Section Unique.

Lemma signup_for_activity_unique reg activity_name email :
  unique_participants reg →
  unique_participants (signup_for_activity activity_name email reg).2.
Proof.
  intros Huniq. destruct (reg !! activity_name) as [activity|] eqn:Hget.
  - rewrite (signup_for_activity_found _ _ _ _ Hget).
    destruct (py_in email _) eqn:Hin; [done|]. apply py_in_false in Hin.
    simpl. intros name other [[<- <-]|[_ Hother]]%lookup_insert_Some; [|by eapply Huniq].
    simpl. apply NoDup_app. split; [by eapply Huniq|]. split.
    + by intros x Hx ->%list_elem_of_singleton.
    + apply NoDup_singleton.
  - unfold signup_for_activity, bind, get_store. by rewrite Hget.
Qed.

Lemma unregister_from_activity_unique reg activity_name email :
  unique_participants reg →
  unique_participants (unregister_from_activity activity_name email reg).2.
Proof.
  intros Huniq. destruct (reg !! activity_name) as [activity|] eqn:Hget.
  - rewrite (unregister_from_activity_found _ _ _ _ Hget).
    destruct (py_in email _); [|done].
    simpl. intros name other [[<- <-]|[_ Hother]]%lookup_insert_Some; [|by eapply Huniq].
    simpl. by eapply py_remove_NoDup, Huniq.
  - unfold unregister_from_activity, bind, get_store. by rewrite Hget.
Qed.

(** A comma-free email decodes to itself, or to nothing when it is empty. *)
Lemma parse_comma_free email :
  has_comma email = false →
  _parse_attendees (Some email) = if truthy_str email then [email] else [].
Proof.
  intros Hcf. rewrite parse_Some, split_comma_free by done.
  destruct (truthy_str email) eqn:Hne.
  - by rewrite filter_cons_True.
  - rewrite filter_cons_False; [done|]. by rewrite Hne.
Qed.

Lemma signup_event_unique tbl event_id email :
  has_comma email = false →
  unique_attendees tbl →
  unique_attendees (signup_event event_id email tbl).2.
Proof.
  intros Hcf Huniq. destruct (tbl !! event_id) as [event|] eqn:Hget.
  - rewrite (signup_event_found _ _ _ _ Hget). cbv zeta.
    destruct (py_in email _) eqn:Hin; [done|]. apply py_in_false in Hin.
    destruct (is_full _ _); [done|].
    simpl. intros key other [[<- <-]|[_ Hother]]%lookup_insert_Some; [|by eapply Huniq].
    rewrite signup_event_decoded, parse_comma_free by done.
    destruct (truthy_str email).
    + apply NoDup_app. split; [by eapply Huniq|]. split.
      * by intros x Hx ->%list_elem_of_singleton.
      * apply NoDup_singleton.
    + rewrite app_nil_r. by eapply Huniq.
  - by rewrite (signup_event_missing _ _ _ Hget).
Qed.

Lemma unregister_event_unique tbl event_id email :
  unique_attendees tbl →
  unique_attendees (unregister_event event_id email tbl).2.
Proof.
  intros Huniq. destruct (tbl !! event_id) as [event|] eqn:Hget.
  - rewrite (unregister_event_found _ _ _ _ Hget). cbv zeta.
    destruct (py_in email _); [|done].
    simpl. intros key other [[<- <-]|[_ Hother]]%lookup_insert_Some; [|by eapply Huniq].
    simpl. rewrite parse_join by apply py_remove_Forall, parse_encodable.
    by eapply py_remove_NoDup, Huniq.
  - by rewrite (unregister_event_missing _ _ _ Hget).
Qed.

End Unique.

(** C9 (amended). From a state in which no participants list and no decoded
    attendee list holds an email twice, each of the five membership requests
    (activity signup and unregister, event signup, unregister and checkin)
    leads to a state with the same property, provided the email of an event
    signup has no comma in it. *)
Theorem unique_members_preserved req w :
  unique_members w →
  (∀ email, encoded_email req = Some email → has_comma email = false) →
  unique_members (serve req w).2.
Proof.
  intros [Hreg Htbl] Hcf. destruct w as [reg tbl]. simpl in *.
  destruct req as [name email|name email|key email|key email|key email];
    unfold serve, on_registry, on_events; simpl.
  - pose proof (signup_for_activity_unique reg name email Hreg).
    by destruct (signup_for_activity name email reg).
  - pose proof (unregister_from_activity_unique reg name email Hreg).
    by destruct (unregister_from_activity name email reg).
  - pose proof (signup_event_unique tbl key email (Hcf _ eq_refl) Htbl).
    by destruct (signup_event key email tbl).
  - pose proof (unregister_event_unique tbl key email Htbl).
    by destruct (unregister_event key email tbl).
  - pose proof (checkin_event_store tbl key email) as Hsame.
    destruct (checkin_event key email tbl) as [r tbl']. simpl in *.
    by subst tbl'.
Qed.

Lemma school_unique : unique_members school.
Proof.
  split.
  - intros name activity Hget. unfold school, full_club in Hget. simpl in Hget.
    apply lookup_singleton_Some in Hget as [_ <-]. by_decide.
  - intros key event Hget. unfold school, three_events in Hget. simpl in Hget.
    repeat (apply lookup_insert_Some in Hget as [[_ <-]|[_ Hget]];
            [by_decide|]).
    done.
Qed.

Lemma unique_members_preserved_witness :
  unique_members (serve (EventSignup 3 "bob@mergington.edu") school).2.
Proof.
  apply (unique_members_preserved (EventSignup 3 "bob@mergington.edu") school).
  - exact school_unique.
  - intros email [= <-]. reflexivity.
Defined.

(** C9 as stated fails: an event signup whose email carries a comma passes
    the membership check and is appended, and the list decoded afterwards
    holds an email twice. *)
Lemma unique_members_broken_by_comma :
  unique_members school
  ∧ (serve (EventSignup 3 "bob@mergington.edu,bob@mergington.edu") school).1
    = inr (mkMessage "Signed up bob@mergington.edu,bob@mergington.edu")
  ∧ ¬ unique_members
        (serve (EventSignup 3 "bob@mergington.edu,bob@mergington.edu") school).2.
Proof.
  split; [exact school_unique|].
  split; [vm_compute; reflexivity|].
  intros [_ Htbl].
  specialize (Htbl 3
    (fair 3 None (Some "bob@mergington.edu,bob@mergington.edu"))).
  assert (¬ NoDup ["bob@mergington.edu"; "bob@mergington.edu"]) as Hdup
    by by_decide.
  apply Hdup, Htbl. vm_compute. reflexivity.
Qed.

(** * Further properties of the handlers *)

(** ** The encoding, both ways *)

Lemma split_length s : length (split "," s) = S (commas s).
Proof.
  induction s as [|c s IH]; simpl; [done|].
  destruct (Ascii.eqb c ","); simpl; [by rewrite IH|].
  destruct (split "," s) as [|seg segs] eqn:Hsplit;
    [by apply split_not_nil in Hsplit|].
  simpl in *. congruence.
Qed.

(** [",".join(s.split(","))] is [s]. *)
Lemma join_split s : join "," (split "," s) = s.
Proof.
  induction s as [|c s IH]; simpl; [done|].
  destruct (Ascii.eqb c ",") eqn:Hc.
  - apply Ascii.eqb_eq in Hc as ->.
    destruct (split "," s) as [|seg segs] eqn:Hsplit;
      [by apply split_not_nil in Hsplit|].
    by rewrite join_cons, IH.
  - destruct (split "," s) as [|seg segs] eqn:Hsplit;
      [by apply split_not_nil in Hsplit|].
    rewrite <-IH. destruct segs; [done|]. by rewrite !join_cons.
Qed.

(** X1. Writing a list of emails with [_join_attendees] and reading it back
    with [_parse_attendees] gives the list again exactly when every email in
    it is non-empty and free of commas. *)
Theorem attendees_roundtrip_iff lst :
  _parse_attendees (Some (_join_attendees lst)) = lst ↔ Forall encodable lst.
Proof.
  split.
  - intros <-. apply parse_encodable.
  - apply parse_join.
Qed.

(** X2. Whatever is stored in the attendees column, the decoded list has no
    empty member and no member with a comma, has at most one member more than
    the string has commas, and is a fixed point of re-encoding: joining it and
    parsing again gives the same list. *)
Theorem parse_attendees_normal s :
  Forall encodable (_parse_attendees s)
  ∧ ("" ∉ _parse_attendees s)
  ∧ _parse_attendees (Some (_join_attendees (_parse_attendees s)))
    = _parse_attendees s
  ∧ (length (_parse_attendees s)
     ≤ match s with Some str => S (commas str) | None => 0 end)%nat.
Proof.
  split; [apply parse_encodable|]. split; [apply parse_no_empty|].
  split; [apply parse_join, parse_encodable|].
  destruct s as [str|]; [|done].
  rewrite parse_Some, <-split_length. apply length_filter.
Qed.

(** ** Event signup: refusals, effect, capacity *)



(** X4. A signup that is accepted (the event is stored, the email is not in
    the decoded list, and the capacity is unset, 0 or not reached) writes the
    old members followed by the email, comma-joined, into the attendees column
    of that event and touches nothing else: every other column of the event
    and every other row are as before.  The decoded list afterwards is the old
    one followed by the non-empty comma segments of the email. *)
Theorem signup_event_effect tbl event_id event email :
  tbl !! event_id = Some event →
  email ∉ _parse_attendees (Event.attendees event) →
  (Event.capacity event = None ∨ Event.capacity event = Some 0
   ∨ (∃ c, Event.capacity event = Some c
           ∧ len (_parse_attendees (Event.attendees event)) < c)) →
  ∃ event' tbl',
    signup_event event_id email tbl
    = (inr (mkMessage ("Signed up " +:+ email)), tbl')
    ∧ tbl' !! event_id = Some event'
    ∧ (∀ other, other ≠ event_id → tbl' !! other = tbl !! other)
    ∧ Event.attendees event'
      = Some (_join_attendees
                (_parse_attendees (Event.attendees event) ++ [email]))
    ∧ _parse_attendees (Event.attendees event')
      = _parse_attendees (Event.attendees event)
        ++ _parse_attendees (Some email)
    ∧ Event.id event' = Some event_id
    ∧ Event.title event' = Event.title event
    ∧ Event.description event' = Event.description event
    ∧ Event.location event' = Event.location event
    ∧ Event.start_datetime event' = Event.start_datetime event
    ∧ Event.end_datetime event' = Event.end_datetime event
    ∧ Event.capacity event' = Event.capacity event
    ∧ Event.organizer event' = Event.organizer event
    ∧ Event.tags event' = Event.tags event.
Proof.
  intros Hget Hnew%py_in_false Hroom%is_full_false. eexists _, _.
  split.
  { rewrite (signup_event_found _ _ _ _ Hget). cbv zeta.
    rewrite Hnew, Hroom. reflexivity. }
  split; [apply lookup_insert_eq|].
  split; [intros other Hne; by apply lookup_insert_ne|].
  split; [done|].
  split; [apply signup_event_decoded|].
  by repeat split.
Qed.

Lemma signup_event_effect_witness :
  ∃ event' tbl',
    signup_event 3 "bob@mergington.edu" three_events
    = (inr (mkMessage "Signed up bob@mergington.edu"), tbl')
    ∧ tbl' !! 3 = Some event'
    ∧ Event.attendees event' = Some "bob@mergington.edu"
    ∧ Event.title event' = "Science Fair".
Proof.
  destruct (signup_event_effect three_events 3 (fair 3 None None)
              "bob@mergington.edu" eq_refl)
    as (event' & tbl' & Hrun & Hget & _ & Hatt & _ & _ & Htitle & _).
  - by_decide.
  - left. reflexivity.
  - exists event', tbl'. split; [exact Hrun|]. split; [exact Hget|].
    split; [exact Hatt|exact Htitle].
Defined.

Lemma len_app {A} (l1 l2 : list A) : len (l1 ++ l2) = len l1 + len l2.
Proof. unfold len. rewrite length_app. lia. Qed.

(** X5. An event with a positive capacity that holds at most that many
    decoded attendees still does after [signup_event], whatever the outcome
    of the call, provided the email has no comma; its capacity is never
    changed by a signup. *)
Theorem signup_event_within_capacity tbl event_id event email c :
  tbl !! event_id = Some event →
  Event.capacity event = Some c →
  0 < c →
  len (_parse_attendees (Event.attendees event)) ≤ c →
  has_comma email = false →
  ∃ event',
    (signup_event event_id email tbl).2 !! event_id = Some event'
    ∧ Event.capacity event' = Some c
    ∧ len (_parse_attendees (Event.attendees event')) ≤ c.
Proof.
  intros Hget Hcap Hpos Hle Hcf.
  rewrite (signup_event_found _ _ _ _ Hget). cbv zeta.
  destruct (py_in email _); [by exists event|].
  destruct (is_full _ _) eqn:Hfull; [by exists event|].
  eexists. split; [apply lookup_insert_eq|]. split; [done|].
  rewrite signup_event_decoded, parse_comma_free, len_app by done.
  apply is_full_false in Hfull as [?|[?|(c' & ? & Hlt)]];
    [congruence|assert (c = 0) by congruence; lia|].
  assert (c' = c) as -> by congruence.
  destruct (truthy_str email); unfold len in *; simpl; lia.
Qed.

Lemma signup_event_within_capacity_witness :
  ∃ event',
    (signup_event 1 "bob@mergington.edu" three_events).2 !! 1 = Some event'
    ∧ Event.capacity event' = Some 1
    ∧ len (_parse_attendees (Event.attendees event')) ≤ 1.
Proof.
  apply (signup_event_within_capacity three_events 1
           (fair 1 (Some 1) (Some "amy@mergington.edu"))
           "bob@mergington.edu" 1);
    first [reflexivity | lia | by vm_compute].
Defined.

(** X6. A negative capacity is truthy and no list is shorter than it: an
    event with a negative capacity refuses every email that is not already
    signed up with 400 "Event is full", and its table stays as it was. *)
Theorem signup_event_negative_capacity tbl event_id event email c :
  tbl !! event_id = Some event →
  Event.capacity event = Some c →
  c < 0 →
  email ∉ _parse_attendees (Event.attendees event) →
  signup_event event_id email tbl
  = (inl (HTTPException 400 "Event is full"), tbl).
Proof.
  intros Hget Hcap Hneg Hnew%py_in_false.
  rewrite (signup_event_found _ _ _ _ Hget). cbv zeta. rewrite Hnew.
  assert (is_full (Event.capacity event)
            (_parse_attendees (Event.attendees event)) = true) as ->; [|done].
  apply is_full_true. exists c. unfold len. split; [done|]. lia.
Qed.

Lemma signup_event_negative_capacity_witness :
  signup_event 7 "bob@mergington.edu" (<[7 := fair 7 (Some (-1)) None]> ∅)
  = (inl (HTTPException 400 "Event is full"),
     <[7 := fair 7 (Some (-1)) None]> ∅).
Proof.
  apply (signup_event_negative_capacity _ 7 (fair 7 (Some (-1)) None)
           "bob@mergington.edu" (-1)).
  - reflexivity.
  - reflexivity.
  - lia.
  - by_decide.
Defined.

(** ** Event unregister *)

Lemma py_remove_snoc x lst : x ∉ lst → py_remove x (lst ++ [x]) = lst.
Proof.
  induction lst as [|y lst IH]; simpl.
  - intros _. by rewrite decide_True.
  - intros [Hne Hout]%not_elem_of_cons.
    rewrite decide_False by done. by rewrite IH.
Qed.



(** X8. Signing an email up for an event and unregistering it again undoes
    the signup: for a stored event with room left and a non-empty, comma-free
    email that is not signed up yet, both calls succeed, the decoded attendee
    list is the one from before the signup, and no other row has changed. *)
Theorem signup_then_unregister_event tbl event_id event email :
  tbl !! event_id = Some event →
  encodable email →
  email ∉ _parse_attendees (Event.attendees event) →
  (Event.capacity event = None ∨ Event.capacity event = Some 0
   ∨ (∃ c, Event.capacity event = Some c
           ∧ len (_parse_attendees (Event.attendees event)) < c)) →
  ∃ tbl1 tbl2,
    signup_event event_id email tbl
    = (inr (mkMessage ("Signed up " +:+ email)), tbl1)
    ∧ unregister_event event_id email tbl1
      = (inr (mkMessage ("Unregistered " +:+ email)), tbl2)
    ∧ attendees_of tbl2 event_id = attendees_of tbl event_id
    ∧ (∀ other, other ≠ event_id → tbl2 !! other = tbl !! other).
Proof.
  intros Hget Henc Hnew Hroom%is_full_false.
  set (members := _parse_attendees (Event.attendees event)) in *.
  set (event1 := Event.set_attendees
                   (Some (_join_attendees (members ++ [email])))
                   (Event.set_id (Some event_id) event)).
  assert (_parse_attendees (Event.attendees event1) = members ++ [email])
    as Hdec1.
  { subst event1 members. by rewrite signup_event_decoded, parse_encodable_id. }
  eexists (<[event_id := event1]> tbl), _. split; [|split; [|split]].
  - rewrite (signup_event_found _ _ _ _ Hget). cbv zeta. fold members.
    apply py_in_false in Hnew as ->. by rewrite Hroom.
  - rewrite (unregister_event_found _ _ event1) by apply lookup_insert_eq.
    cbv zeta. rewrite Hdec1.
    assert (py_in email (members ++ [email]) = true) as ->; [|reflexivity].
    apply py_in_true, elem_of_app. right. by left.
  - unfold attendees_of. rewrite lookup_insert_eq, Hget. simpl. f_equal.
    rewrite py_remove_snoc by done.
    apply parse_join, parse_encodable.
  - intros other Hne. by rewrite !lookup_insert_ne.
Qed.

Lemma signup_then_unregister_event_witness :
  ∃ tbl1 tbl2,
    signup_event 2 "bob@mergington.edu" three_events
    = (inr (mkMessage "Signed up bob@mergington.edu"), tbl1)
    ∧ unregister_event 2 "bob@mergington.edu" tbl1
      = (inr (mkMessage "Unregistered bob@mergington.edu"), tbl2)
    ∧ attendees_of tbl2 2 = Some ["amy@mergington.edu"].
Proof.
  destruct (signup_then_unregister_event three_events 2
              (fair 2 (Some 0) (Some "amy@mergington.edu"))
              "bob@mergington.edu" eq_refl)
    as (tbl1 & tbl2 & Hrun1 & Hrun2 & Hdec & _).
  - by split.
  - by_decide.
  - right. left. reflexivity.
  - exists tbl1, tbl2. split; [exact Hrun1|]. split; [exact Hrun2|exact Hdec].
Defined.

(** ** Creating, reading, listing and deleting events *)














(** ** Refused requests *)

Lemma signup_for_activity_missing reg activity_name email :
  reg !! activity_name = None →
  signup_for_activity activity_name email reg
  = (inl (HTTPException 404 "Activity not found"), reg).
Proof.
  intros Hget. unfold signup_for_activity, bind, get_store. by rewrite Hget.
Qed.

Lemma unregister_from_activity_missing reg activity_name email :
  reg !! activity_name = None →
  unregister_from_activity activity_name email reg
  = (inl (HTTPException 404 "Activity not found"), reg).
Proof.
  intros Hget. unfold unregister_from_activity, bind, get_store.
  by rewrite Hget.
Qed.

Lemma checkin_event_found tbl event_id event email :
  tbl !! event_id = Some event →
  checkin_event event_id email tbl
  = if py_in email (_parse_attendees (Event.attendees event))
    then (inr (mkMessage ("Checked in " +:+ email)), tbl)
    else (inl (HTTPException 400 "Student not registered"), tbl).
Proof.
  intros Hget. unfold checkin_event, bind, session_get. rewrite Hget. simpl.
  by destruct (py_in email _).
Qed.

Lemma checkin_event_missing tbl event_id email :
  tbl !! event_id = None →
  checkin_event event_id email tbl
  = (inl (HTTPException 404 "Event not found"), tbl).
Proof. intros Hget. unfold checkin_event, bind, session_get. by rewrite Hget. Qed.

(** Case analysis on the five membership handlers at once. *)
Ltac run_membership :=
  match goal with
  | |- context [signup_for_activity ?n ?e ?reg] =>
      destruct (reg !! n) eqn:?Hget;
      [erewrite signup_for_activity_found by eassumption
      |erewrite signup_for_activity_missing by eassumption]
  | |- context [unregister_from_activity ?n ?e ?reg] =>
      destruct (reg !! n) eqn:?Hget;
      [erewrite unregister_from_activity_found by eassumption
      |erewrite unregister_from_activity_missing by eassumption]
  | |- context [signup_event ?k ?e ?tbl] =>
      destruct (tbl !! k) eqn:?Hget;
      [erewrite signup_event_found by eassumption
      |erewrite signup_event_missing by eassumption]
  | |- context [unregister_event ?k ?e ?tbl] =>
      destruct (tbl !! k) eqn:?Hget;
      [erewrite unregister_event_found by eassumption
      |erewrite unregister_event_missing by eassumption]
  | |- context [checkin_event ?k ?e ?tbl] =>
      destruct (tbl !! k) eqn:?Hget;
      [erewrite checkin_event_found by eassumption
      |erewrite checkin_event_missing by eassumption]
  end; cbv zeta; repeat case_match; simpl.


(** ** Stored rows carry their key *)






Lemma three_events_keyed : keyed three_events.
Proof.
  intros key event Hget. unfold three_events in Hget.
  repeat (apply lookup_insert_Some in Hget as [[<- <-]|[_ Hget]]; [done|]).
  done.
Qed.


(** X17. A PUT whose body sets no field changes nothing: in a table whose
    rows carry their keys, [update_event] with the empty payload returns the
    stored event and leaves the table as it was. *)
Theorem update_event_no_fields tbl event_id event :
  keyed tbl →
  tbl !! event_id = Some event →
  update_event event_id no_fields tbl = (inr event, tbl).
Proof.
  intros Hk Hget. rewrite (update_event_found _ _ _ _ Hget).
  pose proof (Hk _ _ Hget) as Hid. simpl in Hid.
  assert (apply_payload no_fields (Event.set_id (Some event_id) event) = event)
    as ->.
  { destruct event. simpl in *. by subst. }
  unfold session_update. simpl. rewrite Hid, decide_True by done.
  by rewrite insert_id.
Qed.

Lemma update_event_no_fields_witness :
  update_event 2 no_fields three_events
  = (inr (fair 2 (Some 0) (Some "amy@mergington.edu")), three_events).
Proof.
  apply (update_event_no_fields three_events 2).
  - exact three_events_keyed.
  - reflexivity.
Defined.

(** ** News *)


Lemma get_news_found tbl news_id item :
  tbl !! news_id = Some item →
  get_news news_id tbl = (inr (News.set_id (Some news_id) item), tbl).
Proof. intros Hget. unfold get_news, bind, session_get. by rewrite Hget. Qed.








(** ** The registry under signup and unregister *)

Lemma same_offer_refl reg : same_offer reg reg.
Proof. split; [done|]. intros name activity Hget. by exists activity. Qed.

Lemma same_offer_insert reg name activity lst :
  reg !! name = Some activity →
  same_offer reg (<[name := set_participants lst activity]> reg).
Proof.
  intros Hget. split; [by apply dom_insert_lookup_L|].
  intros other activity' [[<- <-]|[_ Hother]]%lookup_insert_Some.
  - by exists activity.
  - by exists activity'.
Qed.

(** X20. Signup and unregister never add, remove or rename an activity and
    never change a description, a schedule or a [max_participants]: whatever
    the arguments and the outcome, the registry afterwards offers the same
    activities, and every activity other than the one named in the call is
    exactly as before. *)
Theorem registry_offer_kept reg activity_name email :
  same_offer reg (signup_for_activity activity_name email reg).2
  ∧ same_offer reg (unregister_from_activity activity_name email reg).2
  ∧ (∀ other, other ≠ activity_name →
       (signup_for_activity activity_name email reg).2 !! other = reg !! other
       ∧ (unregister_from_activity activity_name email reg).2 !! other
         = reg !! other).
Proof.
  split; [|split].
  - run_membership; first [apply same_offer_refl | by apply same_offer_insert].
  - run_membership; first [apply same_offer_refl | by apply same_offer_insert].
  - intros other Hne. split; run_membership; try done;
      by apply lookup_insert_ne.
Qed.

(** Settles [status = code ↔ condition] once the status is a number and the
    lookup is known. *)
Ltac status_iff :=
  split;
  [ let Hst := fresh in
    intros Hst; first [discriminate Hst | reflexivity | eauto]
  | let Hc := fresh in
    intros Hc;
    first [ discriminate Hc
          | reflexivity
          | by destruct Hc as (? & [= <-] & ?)
          | by destruct Hc as (? & ? & ?) ] ].

(** X21. The answer of [signup_for_activity] is decided by two tests in this
    order: 404 exactly when the name is not in the registry, 400 exactly when
    it is and the email is already among the participants, 200 exactly when
    it is and the email is not; there is no other answer. *)
Theorem signup_for_activity_status reg activity_name email :
  let status := http_status (signup_for_activity activity_name email reg).1 in
  (status = 404 ↔ reg !! activity_name = None)
  ∧ (status = 400 ↔ ∃ activity, reg !! activity_name = Some activity
                                ∧ email ∈ participants activity)
  ∧ (status = 200 ↔ ∃ activity, reg !! activity_name = Some activity
                                ∧ email ∉ participants activity)
  ∧ status ∈ [200; 400; 404].
Proof.
  cbv zeta. destruct (reg !! activity_name) as [activity|] eqn:Hget.
  - rewrite (signup_for_activity_found _ _ _ _ Hget).
    destruct (py_in email (participants activity)) eqn:Hin; simpl.
    + apply py_in_true in Hin. split_and!; [status_iff..|by_decide].
    + apply py_in_false in Hin. split_and!; [status_iff..|by_decide].
  - rewrite (signup_for_activity_missing _ _ _ Hget). simpl.
    split_and!; [status_iff..|by_decide].
Qed.

(** X22. Signing a student up for an activity and unregistering the student
    again restores the registry exactly: for a known activity and an email
    that is not among its participants both calls succeed and the registry
    after the second is the registry before the first. *)
Theorem signup_then_unregister_activity reg activity_name activity email :
  reg !! activity_name = Some activity →
  email ∉ participants activity →
  ∃ reg1,
    signup_for_activity activity_name email reg
    = (inr (mkMessage ("Signed up " +:+ email +:+ " for " +:+ activity_name)),
       reg1)
    ∧ unregister_from_activity activity_name email reg1
      = (inr (mkMessage
                ("Unregistered " +:+ email +:+ " from " +:+ activity_name)),
         reg).
Proof.
  intros Hget Hnew. eexists. split.
  { rewrite (signup_for_activity_found _ _ _ _ Hget).
    apply py_in_false in Hnew as Hnew'. rewrite Hnew'. reflexivity. }
  rewrite (unregister_from_activity_found _ _
             (set_participants (participants activity ++ [email]) activity))
    by apply lookup_insert_eq.
  simpl.
  assert (py_in email (participants activity ++ [email]) = true) as ->.
  { apply py_in_true, elem_of_app. right. by left. }
  rewrite py_remove_snoc by done. f_equal.
  rewrite insert_insert_eq. apply insert_id.
  rewrite Hget. by destruct activity.
Qed.

Lemma signup_then_unregister_activity_witness :
  ∃ reg1,
    signup_for_activity "Tiny Club" "cat@mergington.edu" full_club
    = (inr (mkMessage "Signed up cat@mergington.edu for Tiny Club"), reg1)
    ∧ unregister_from_activity "Tiny Club" "cat@mergington.edu" reg1
      = (inr (mkMessage "Unregistered cat@mergington.edu from Tiny Club"),
         full_club).
Proof.
  apply (signup_then_unregister_activity full_club "Tiny Club"
           (mkActivity "Two seats only" "Mondays, 3:30 PM - 4:30 PM" 2
              ["amy@mergington.edu"; "bob@mergington.edu"])
           "cat@mergington.edu").
  - vm_compute. reflexivity.
  - by_decide.
Defined.

(** ** Checkin against signup *)

(** X23. For a stored event, an email can check in exactly when signing it up
    again would be refused as a duplicate; and once a non-empty, comma-free
    email has been signed up, its checkin succeeds and changes nothing. *)
Theorem checkin_after_signup tbl event_id event email :
  tbl !! event_id = Some event →
  ((checkin_event event_id email tbl).1
   = inr (mkMessage ("Checked in " +:+ email))
   ↔ (signup_event event_id email tbl).1
     = inl (HTTPException 400 "Already signed up"))
  ∧ (encodable email →
     ∀ msg tbl', signup_event event_id email tbl = (inr msg, tbl') →
       checkin_event event_id email tbl'
       = (inr (mkMessage ("Checked in " +:+ email)), tbl')).
Proof.
  intros Hget. split.
  - rewrite (checkin_event_found _ _ _ _ Hget),
      (signup_event_found _ _ _ _ Hget). cbv zeta.
    destruct (py_in email _); simpl; [done|].
    by destruct (is_full _ _).
  - intros Henc msg tbl' Hrun.
    rewrite (signup_event_found _ _ _ _ Hget) in Hrun. cbv zeta in Hrun.
    destruct (py_in email _); [done|]. destruct (is_full _ _); [done|].
    injection Hrun as _ <-.
    erewrite checkin_event_found by apply lookup_insert_eq.
    rewrite signup_event_decoded, parse_encodable_id by done.
    assert (py_in email (_parse_attendees (Event.attendees event) ++ [email])
            = true) as ->; [|done].
    apply py_in_true, elem_of_app. right. by left.
Qed.

Lemma checkin_after_signup_witness :
  checkin_event 3 "bob@mergington.edu"
    (signup_event 3 "bob@mergington.edu" three_events).2
  = (inr (mkMessage "Checked in bob@mergington.edu"),
     (signup_event 3 "bob@mergington.edu" three_events).2).
Proof.
  apply (proj2 (checkin_after_signup three_events 3 (fair 3 None None)
                  "bob@mergington.edu" eq_refl)
           (conj eq_refl eq_refl)
           (mkMessage "Signed up bob@mergington.edu")).
  reflexivity.
Defined.
